(** * HabitFlow: the habit repository and its analytics, embedded from app.js

    The class [HabitTrackerApp] keeps two mutable fields that matter here:
    [this.habits], an array of habit objects, and [this.completions], an
    object keyed by the day string 'YYYY-MM-DD' whose values are objects
    keyed by habit id.  Every method is embedded as a function from the
    state before the call to the state after it.

    Conventions of the embedding.
    - A calendar day is the number of days since 1970-01-01 (a [Z]); the
      key [moment().format('YYYY-MM-DD')] is that number, the formatting
      being one-to-one on days.  1970-01-01 was a Thursday.
    - The counters [streak], [bestStreak], [totalCompletions] and [target]
      are JS numbers holding integers; they are [Z] here (no rounding
      below 2^53).
    - A completion entry is always the object literal written by
      [toggleHabitCompletion], hence truthy: a key is present in the inner
      map exactly when the JS test [this.completions[d][id]] succeeds.
    - Toasts, notifications, [saveData] and the render calls do not touch
      [habits] or [completions] and are left out. *)

From Stdlib Require Import ZArith QArith Qround Qminmax Reals Lra Lia Ascii String.
From stdpp Require Import gmap strings pretty list fin_maps.

Local Open Scope Z_scope.

(** ** Data model *)

(** One reading of the clock: [Date.now()] and what [moment()] shows. *)
Record clock := Clock {
  date_now : Z;       (* Date.now(), milliseconds *)
  today : Z;          (* the local calendar day, key 'YYYY-MM-DD' *)
  time_of_day : Z     (* seconds into that day, 'HH:mm:ss' *)
}.

(** [moment().day()]: 0 is Sunday, 6 is Saturday. *)
Definition weekday (d : Z) : Z := (d + 4) mod 7.

Record habit := Habit {
  id : string;
  name : string;
  description : string;
  category : string;
  icon : string;
  color : string;
  target : Z;
  frequency : string;            (* 'daily' | 'weekly' | 'custom' *)
  selectedDays : list Z;
  reminderTime : option string;
  createdAt : Z;
  streak : Z;
  bestStreak : Z;
  totalCompletions : Z
}.

(** [{completed: true, timestamp: 'YYYY-MM-DD HH:mm:ss'}] *)
Record event := Event {
  completed : bool;
  timestamp : Z * Z
}.

Record app := App {
  habits : list habit;
  completions : gmap Z (gmap string event);
  dateRangeDays : Z;
  customDateStart : option Z;
  customDateEnd : option Z
}.

(** The argument of [addHabit] and [updateHabit], as [handleHabitSubmit]
    builds it: [target] is the text of the form field. *)
Record habitData := HabitData {
  d_name : string;
  d_description : option string;
  d_category : string;
  d_icon : string;
  d_color : string;
  d_target : string;
  d_frequency : string;
  d_selectedDays : option (list Z);
  d_reminderTime : option string
}.

Definition set_habits (hs : list habit) (st : app) : app :=
  App hs (completions st) (dateRangeDays st) (customDateStart st) (customDateEnd st).

Definition set_completions (cs : gmap Z (gmap string event)) (st : app) : app :=
  App (habits st) cs (dateRangeDays st) (customDateStart st) (customDateEnd st).

Definition set_totalCompletions (n : Z) (h : habit) : habit :=
  Habit (id h) (name h) (description h) (category h) (icon h) (color h) (target h)
        (frequency h) (selectedDays h) (reminderTime h) (createdAt h)
        (streak h) (bestStreak h) n.

Definition set_streaks (s b : Z) (h : habit) : habit :=
  Habit (id h) (name h) (description h) (category h) (icon h) (color h) (target h)
        (frequency h) (selectedDays h) (reminderTime h) (createdAt h)
        s b (totalCompletions h).

(** [this.completions[d] && this.completions[d][habitId]], as a test. *)
Definition is_completed (cs : gmap Z (gmap string event)) (d : Z) (habitId : string) : bool :=
  match cs !! d with
  | Some day => bool_decide (is_Some (day !! habitId))
  | None => false
  end.

(** [this.habits.find(h => h.id === habitId)] with the position found, so
    that the in-place update of the object can be written back. *)
Definition find_habit (habitId : string) (hs : list habit) : option (nat * habit) :=
  list_find (λ h, id h = habitId) hs.

(** ** parseInt *)

Module ParseInt.

Definition is_space (c : ascii) : bool :=
  match nat_of_ascii c with
  | 9%nat | 10%nat | 11%nat | 12%nat | 13%nat | 32%nat => true
  | _ => false
  end.

Fixpoint skip_space (s : string) : string :=
  match s with
  | String c s' => if is_space c then skip_space s' else s
  | EmptyString => s
  end.

Definition digit_of (c : ascii) : option Z :=
  let n := Z.of_nat (nat_of_ascii c) in
  if (48 <=? n) && (n <=? 57) then Some (n - 48)
  else if (97 <=? n) && (n <=? 122) then Some (n - 87)
  else if (65 <=? n) && (n <=? 90) then Some (n - 55)
  else None.

(** The longest prefix of digits below the radix; [None] when empty. *)
Fixpoint digits (radix : Z) (s : string) (acc : option Z) : option Z :=
  match s with
  | String c s' =>
      match digit_of c with
      | Some d =>
          if d <? radix then digits radix s' (Some (radix * default 0 acc + d))
          else acc
      | None => acc
      end
  | EmptyString => acc
  end.

Definition sign (s : string) : bool * string :=
  match s with
  | String "-" r => (true, r)
  | String "+" r => (false, r)
  | _ => (false, s)
  end.

Definition radix_of (s : string) : Z * string :=
  match s with
  | String "0" (String "x" r) => (16, r)
  | String "0" (String "X" r) => (16, r)
  | _ => (10, s)
  end.

(** [parseInt(s)]; [None] is NaN. *)
Definition parseInt (s : string) : option Z :=
  let '(neg, s2) := sign (skip_space s) in
  let '(radix, s3) := radix_of s2 in
  (λ v, if neg : bool then - v else v) <$> digits radix s3 None.

(** [parseInt(s) || 1]: NaN and 0 are falsy. *)
Definition or_one (s : string) : Z :=
  match parseInt s with
  | Some v => if v =? 0 then 1 else v
  | None => 1
  end.

End ParseInt.

(** ** Habit management *)

Definition all_days : list Z := [0; 1; 2; 3; 4; 5; 6].

Definition new_habit (now : clock) (hd : habitData) : habit :=
  {| id := pretty (date_now now);
     name := d_name hd;
     description := default EmptyString (d_description hd);
     category := d_category hd;
     icon := d_icon hd;
     color := d_color hd;
     target := ParseInt.or_one (d_target hd);
     frequency := d_frequency hd;
     selectedDays := default all_days (d_selectedDays hd);
     reminderTime :=
       match d_reminderTime hd with
       | Some EmptyString => None
       | r => r
       end;
     createdAt := today now;
     streak := 0;
     bestStreak := 0;
     totalCompletions := 0 |}.

Definition addHabit (now : clock) (hd : habitData) (st : app) : app :=
  set_habits (habits st ++ [new_habit now hd]) st.

(** [confirm(...)] is the answer of the user to the dialog. *)
Definition deleteHabit (confirm : bool) (habitId : string) (st : app) : app :=
  if confirm then
    App (filter (λ h, id h ≠ habitId) (habits st))
        (delete habitId <$> completions st)
        (dateRangeDays st) (customDateStart st) (customDateEnd st)
  else st.

(** The loop of [updateStreak]: [streak] and [currentDate] are its two
    variables.  The JS loop is [while (true)]; the fuel counts iterations
    and [None] means it ran out. *)
Fixpoint streak_walk (fuel : nat) (cs : gmap Z (gmap string event))
    (habitId : string) (currentDate streak : Z) : option Z :=
  match fuel with
  | O => None
  | S fuel' =>
      if is_completed cs currentDate habitId
      then streak_walk fuel' cs habitId (currentDate - 1) (streak + 1)
      else Some streak
  end.

(** One more iteration than the ledger has days is always enough
    (see [streak_walk_total]); the [None] branch is never taken. *)
Definition updateStreak (now : clock) (habitId : string) (st : app) : app :=
  match find_habit habitId (habits st) with
  | None => st
  | Some (i, h) =>
      match streak_walk (S (size (completions st))) (completions st) habitId (today now) 0 with
      | Some s => set_habits (<[i := set_streaks s (Z.max (bestStreak h) s) h]> (habits st)) st
      | None => st
      end
  end.

Definition isHabitActiveToday (now : clock) (h : habit) : bool :=
  if String.eqb (frequency h) "daily" then true
  else bool_decide (weekday (today now) ∈ selectedDays h).

Definition toggleHabitCompletion (now : clock) (habitId : string) (st : app) : app :=
  let cs1 :=
    match completions st !! today now with
    | Some _ => completions st
    | None => <[today now := ∅]> (completions st)
    end in
  match find_habit habitId (habits st) with
  | None => set_completions cs1 st
  | Some (i, h) =>
      let day := default ∅ (cs1 !! today now) in
      match day !! habitId with
      | Some _ =>
          App (<[i := set_totalCompletions (Z.max 0 (totalCompletions h - 1)) h]> (habits st))
              (<[today now := delete habitId day]> cs1)
              (dateRangeDays st) (customDateStart st) (customDateEnd st)
      | None =>
          updateStreak now habitId
            (App (<[i := set_totalCompletions (totalCompletions h + 1) h]> (habits st))
                 (<[today now := <[habitId := Event true (today now, time_of_day now)]> day]> cs1)
                 (dateRangeDays st) (customDateStart st) (customDateEnd st))
      end
  end.

(** A run of calls, each with its own reading of the clock. *)
Fixpoint toggle_all (calls : list (clock * string)) (st : app) : app :=
  match calls with
  | [] => st
  | (now, habitId) :: rest => toggle_all rest (toggleHabitCompletion now habitId st)
  end.

(** ** Dashboard statistics and the 30-day window *)

(** [Math.round]: halves go up. *)
Definition Math_round (q : Q) : Z := Qfloor (q + (1 # 2))%Q.

(** [updateStats], the rate shown as [completionRate]: the habits due
    today, those of them done today, and the rounded percentage. *)
Definition todaysHabits (now : clock) (st : app) : list habit :=
  filter (λ h, isHabitActiveToday now h = true) (habits st).

Definition completedToday (now : clock) (st : app) : list habit :=
  filter (λ h, is_completed (completions st) (today now) (id h) = true) (todaysHabits now st).

Definition completionRate (now : clock) (st : app) : Z :=
  let due := Z.of_nat (length (todaysHabits now st)) in
  let done := Z.of_nat (length (completedToday now st)) in
  if 0 <? due then Math_round (inject_Z done / inject_Z due * 100)%Q else 0.

(** [for (let i = 0; i < 30; i++)] over [moment().subtract(i, 'days')]. *)
Definition getLast30DaysCompletions (now : clock) (habitId : string) (st : app) : Z :=
  fold_left
    (λ count i, if is_completed (completions st) (today now - i) habitId then count + 1 else count)
    (seqZ 0 30) 0.

Definition getLast30DaysPossible (now : clock) (h : habit) : Z :=
  fold_left
    (λ count i,
       if String.eqb (frequency h) "daily" then count + 1
       else if bool_decide (weekday (today now - i) ∈ selectedDays h) then count + 1
       else count)
    (seqZ 0 30) 0.

(** [renderConsistencyRadarChart]: one entry of [consistencyScore]. *)
Definition consistencyScore (now : clock) (h : habit) (st : app) : Q :=
  let last30 := getLast30DaysCompletions now (id h) st in
  let possible := getLast30DaysPossible now h in
  if 0 <? possible then (inject_Z last30 / inject_Z possible * 100)%Q else 0%Q.

(** [renderTargetRadarChart]: the body run for the habits of one
    category; the two accumulators, then the guarded ratio capped at 100. *)
Definition actualCompletions (now : clock) (hs : list habit) (st : app) : Z :=
  fold_left (λ acc h, acc + getLast30DaysCompletions now (id h) st) hs 0.

Definition targetCompletions (now : clock) (hs : list habit) : Z :=
  fold_left (λ acc h, acc + getLast30DaysPossible now h * target h) hs 0.

Definition targetAchievement (now : clock) (hs : list habit) (st : app) : Q :=
  let actual := actualCompletions now hs st in
  let wanted := targetCompletions now hs in
  let total := if 0 <? wanted then (inject_Z actual / inject_Z wanted * 100)%Q else 0%Q in
  Qmin total 100%Q.

(** [_.groupBy(this.habits, 'category')], keys by first occurrence. *)
Definition groupByCategory (hs : list habit) : list (string * list habit) :=
  (λ c, (c, filter (λ h, category h = c) hs)) <$> remove_dups (category <$> hs).

Definition categoryMetrics (now : clock) (st : app) : list (string * Q) :=
  (λ g, (g.1, targetAchievement now g.2 st)) <$> groupByCategory (habits st).

(** ** Correlation *)

Definition getDateRangeData (now : clock) (st : app) : list Z :=
  let days :=
    match customDateStart st, customDateEnd st with
    | Some s, Some e => e - s + 1
    | _, _ => dateRangeDays st
    end in
  let startDate := default (today now - (days - 1)) (customDateStart st) in
  (λ i, startDate + i) <$> seqZ 0 days.

(** The 0/1 vector of one habit over the range. *)
Definition completionVector (cs : gmap Z (gmap string event)) (habitId : string)
    (dateRange : list Z) : list R :=
  (λ d, if is_completed cs d habitId then 1%R else 0%R) <$> dateRange.

(** The arithmetic of [calculateCorrelation] on the two vectors.  JS
    numbers are read as real numbers: the sums are small integers, and
    the quotient and the square root are taken exactly. *)
Definition pearson (completions1 completions2 : list R) : R :=
  let n := length completions1 in
  if decide (n = 0%nat) then 0%R else
  let sum1 := fold_left Rplus completions1 0%R in
  let sum2 := fold_left Rplus completions2 0%R in
  let sum1Sq := fold_left (λ a b, a + b * b)%R completions1 0%R in
  let sum2Sq := fold_left (λ a b, a + b * b)%R completions2 0%R in
  let pSum := fold_left (λ a bc, a + bc.1 * bc.2)%R (zip completions1 completions2) 0%R in
  let num := (pSum - sum1 * sum2 / INR n)%R in
  let den := sqrt ((sum1Sq - sum1 * sum1 / INR n) * (sum2Sq - sum2 * sum2 / INR n))%R in
  if Req_EM_T den 0%R then 0%R else (num / den)%R.

Definition calculateCorrelation (now : clock) (habitId1 habitId2 : string) (st : app) : R :=
  let dateRange := getDateRangeData now st in
  pearson (completionVector (completions st) habitId1 dateRange)
          (completionVector (completions st) habitId2 dateRange).

(** [[...this.habits].sort((a, b) => b.totalCompletions - a.totalCompletions)]:
    the sort is stable, so a habit goes in front of the first one with
    strictly fewer completions. *)
Fixpoint insert_by_total (h : habit) (l : list habit) : list habit :=
  match l with
  | [] => [h]
  | y :: l' =>
      if totalCompletions y <? totalCompletions h then h :: y :: l'
      else y :: insert_by_total h l'
  end.

Definition sort_by_total (l : list habit) : list habit := foldr insert_by_total [] l.

Definition topHabits (st : app) : list habit := take 6 (sort_by_total (habits st)).

(** The matrix built by [renderCorrelationHeatmap]; [None] is the early
    return taken with fewer than two habits. *)
Definition matrix_of (now : clock) (st : app) (top : list habit) : list (list R) :=
  (λ habit1,
     (λ habit2,
        if decide (id habit1 = id habit2) then 1%R
        else calculateCorrelation now (id habit1) (id habit2) st) <$> top) <$> top.

Definition correlationMatrix (now : clock) (st : app) : option (list (list R)) :=
  if (length (habits st) <? 2)%nat then None
  else Some (matrix_of now st (topHabits st)).

Definition entry (m : list (list R)) (i j : nat) : option R :=
  m !! i ≫= (λ row, row !! j).

(** ** Import of a backup file

    [importData] assigns whatever [JSON.parse] returned to the fields of
    the application, so the fields are JSON values here.  Numbers are
    integers (enough for the truth test), and an object is the list of
    its members in the order of the text, a later duplicate winning. *)

Module Backup.

#[local] Unset Elimination Schemes.
Inductive json :=
| JNull
| JBool (b : bool)
| JNum (z : Z)
| JStr (s : string)
| JArr (items : list json)
| JObj (members : list (string * json)).
#[local] Set Elimination Schemes.

Inductive exn :=
| SyntaxError          (* thrown by JSON.parse *)
| TypeError            (* a property read on null *)
| InvalidDataFormat    (* new Error('Invalid data format') *)
| RenderError.         (* thrown while drawing the imported data *)

Inductive toast := ImportedSuccessfully | ErrorImporting (logged : exn).

Record store := Store {
  s_habits : json;
  s_completions : json;
  s_settings : json
}.

(** [undefined] is [None]. *)
Definition member (key : string) (members : list (string * json)) : option json :=
  snd <$> last (filter (λ kv, kv.1 = key) members).

(** [data.key]: a read on null throws, on another primitive or on an
    array it gives undefined. *)
Definition get (key : string) (data : json) : exn + option json :=
  match data with
  | JNull => inl TypeError
  | JObj members => inr (member key members)
  | _ => inr None
  end.

Definition truthy (v : option json) : bool :=
  match v with
  | None => false
  | Some JNull => false
  | Some (JBool b) => b
  | Some (JNum z) => negb (z =? 0)
  | Some (JStr s) => negb (String.eqb s "")
  | Some (JArr _) => true
  | Some (JObj _) => true
  end.

Section WithCollaborators.

(** Whether [renderDashboard] throws on the imported fields. *)
Variable render_throws : store → bool.

(** The body of the [try] block; the state travels with the result
    because the assignments are not undone by a later throw. *)
Definition try_import (text : option json) (st : store) : store * (exn + unit) :=
  match text with
  | None => (st, inl SyntaxError)
  | Some data =>
      match get "habits" data with
      | inl e => (st, inl e)
      | inr hs =>
          if truthy hs then
            match get "completions" data with
            | inl e => (st, inl e)
            | inr cs =>
                if truthy cs then
                  let st1 := Store (default JNull hs) (default JNull cs) (s_settings st) in
                  match get "settings" data with
                  | inl e => (st1, inl e)
                  | inr ss =>
                      let st2 :=
                        if truthy ss then Store (s_habits st1) (s_completions st1) (default JNull ss)
                        else st1 in
                      if render_throws st2 then (st2, inl RenderError) else (st2, inr tt)
                  end
                else (st, inl InvalidDataFormat)
            end
          else (st, inl InvalidDataFormat)
      end
  end.

(** [reader.onload]: the [catch] turns any throw into the error toast. *)
Definition importData (text : option json) (st : store) : store * toast :=
  match try_import text st with
  | (st', inr _) => (st', ImportedSuccessfully)
  | (st', inl e) => (st', ErrorImporting e)
  end.

(** Both keys are there, with whatever value. *)
Definition has_keys (data : json) : Prop :=
  match data with
  | JObj members => is_Some (member "habits" members) ∧ is_Some (member "completions" members)
  | _ => False
  end.

End WithCollaborators.

End Backup.

(** ** The invariant of the derived counters *)

Definition counters_ok (h : habit) : Prop :=
  0 ≤ streak h ≤ bestStreak h ∧ 0 ≤ totalCompletions h.

(** The entry of the ledger for one day and one habit, if any. *)
Definition ledger_entry (cs : gmap Z (gmap string event)) (d : Z) (habitId : string) : option event :=
  cs !! d ≫= (λ day, day !! habitId).

(** ** Fixtures

    The state right after the constructor, and one working week of a
    habit scheduled Monday to Friday: 1970-01-05 (day 4) was a Monday. *)

Module Scenario.

Definition fresh : app := App [] ∅ 30 None None.

Definition at_noon (d : Z) : clock := Clock (d * 86400000 + 43200000) d 43200.

Definition monday : Z := 4.
Definition friday : Z := 8.
Definition saturday : Z := 9.

Definition weekdays_data : habitData :=
  HabitData "Stretch" None "fitness" "fa-running" "#43e97b" "1" "custom"
            (Some [1; 2; 3; 4; 5]) None.

Definition hid : string := pretty (date_now (at_noon monday)).

Definition created : app := addHabit (at_noon monday) weekdays_data fresh.

(** Marked done once a day, Monday to Friday. *)
Definition after_week : app :=
  toggle_all ((λ d, (at_noon d, hid)) <$> seqZ monday 5) created.

(** A state as [loadData] can restore it: the habit is marked done on
    Saturday while its lifetime total reads 0. *)
Definition restored : app :=
  App [Habit "h1" "Read" "" "learning" "fa-book" "#667eea" 1 "daily" all_days None 4 0 0 0]
      {[ saturday := {[ "h1" := Event true (saturday, 43200) ]} ]}
      30 None None.

(** A custom habit with no day selected: it is never due. *)
Definition unscheduled : habit :=
  Habit "h2" "Someday" "" "other" "fa-star" "#f093fb" 3 "custom" [] None 4 0 0 0.

(** The range selector of the analytics view set to no day at all. *)
Definition no_range : app := App (habits after_week) (completions after_week) 0 None None.

End Scenario.

(** ** Editing a habit and the form behind both dialogs *)

(** The object written by [updateHabit]: the spread keeps [id],
    [createdAt] and the three counters, the form supplies the rest. *)
Definition updated_habit (hd : habitData) (h : habit) : habit :=
  {| id := id h;
     name := d_name hd;
     description := default EmptyString (d_description hd);
     category := d_category hd;
     icon := d_icon hd;
     color := d_color hd;
     target := ParseInt.or_one (d_target hd);
     frequency := d_frequency hd;
     selectedDays := default all_days (d_selectedDays hd);
     reminderTime :=
       match d_reminderTime hd with
       | Some EmptyString => None
       | r => r
       end;
     createdAt := createdAt h;
     streak := streak h;
     bestStreak := bestStreak h;
     totalCompletions := totalCompletions h |}.

(** [findIndex] and the write at that index; nothing when the index is -1. *)
Definition updateHabit (habitId : string) (hd : habitData) (st : app) : app :=
  match find_habit habitId (habits st) with
  | Some (i, h) => set_habits (<[i := updated_habit hd h]> (habits st)) st
  | None => st
  end.

(** What [handleHabitSubmit] reads from the page: the frequency button
    that is active, if any, the day buttons that are active, and the
    text of the fields. *)
Record form := Form {
  f_activeFreq : option string;
  f_activeDays : list Z;
  f_name : string;
  f_description : string;
  f_category : string;
  f_icon : string;
  f_color : string;
  f_target : string;
  f_reminder : string
}.

Fixpoint string_rev_onto (s acc : string) : string :=
  match s with
  | EmptyString => acc
  | String c s' => string_rev_onto s' (String c acc)
  end.

(** [String.prototype.trim], on the white space of ASCII. *)
Definition trim (s : string) : string :=
  string_rev_onto (ParseInt.skip_space (string_rev_onto (ParseInt.skip_space s) EmptyString))
                  EmptyString.

Definition form_frequency (f : form) : string := default "daily" (f_activeFreq f).

Definition form_selectedDays (now : clock) (f : form) : list Z :=
  if String.eqb (form_frequency f) "custom" then f_activeDays f
  else if String.eqb (form_frequency f) "weekly" then [weekday (today now)]
  else all_days.

Definition form_data (now : clock) (f : form) : habitData :=
  {| d_name := trim (f_name f);
     d_description := Some (trim (f_description f));
     d_category := f_category f;
     d_icon := f_icon f;
     d_color := f_color f;
     d_target := f_target f;
     d_frequency := form_frequency f;
     d_selectedDays := Some (form_selectedDays now f);
     d_reminderTime := if String.eqb (f_reminder f) "" then None else Some (f_reminder f) |}.

(** [editing] is [this.editingHabitId]; null and the empty string are falsy. *)
Definition handleHabitSubmit (now : clock) (editing : option string) (f : form) (st : app) : app :=
  match editing with
  | Some habitId =>
      if String.eqb habitId "" then addHabit now (form_data now f) st
      else updateHabit habitId (form_data now f) st
  | None => addHabit now (form_data now f) st
  end.

(** ** More of the analytics *)

(** [getLastNDaysCompletions(habitId, days)] *)
Definition getLastNDaysCompletions (now : clock) (habitId : string) (days : Z) (st : app) : Z :=
  fold_left
    (λ count i, if is_completed (completions st) (today now - i) habitId then count + 1 else count)
    (seqZ 0 days) 0.

(** [renderMomentumPolarChart]: the term one habit adds to the sum of its
    category, and the value plotted for the category. *)
Definition habitMomentum (now : clock) (h : habit) (st : app) : Q :=
  let last7 := getLastNDaysCompletions now (id h) 7 st in
  let prev7 := getLastNDaysCompletions now (id h) 14 st - last7 in
  if 0 <? prev7 then (inject_Z (last7 - prev7) / inject_Z prev7 * 100 + 100)%Q
  else inject_Z (last7 * 20).

Definition categoryMomentum (now : clock) (hs : list habit) (st : app) : Q :=
  Qmax 0 (fold_left (λ sum h, sum + habitMomentum now h st)%Q hs 0%Q
          / inject_Z (Z.of_nat (length hs)))%Q.

(** [renderStreakQualityPolarChart]: the current streak as a share of the best. *)
Definition streakQuality (h : habit) : Q :=
  if 0 <? bestStreak h then (inject_Z (streak h) / inject_Z (bestStreak h) * 100)%Q else 0%Q.

(** [updateStats]: the longest current streak and the points. *)
Definition maxStreak (st : app) : Z :=
  match streak <$> habits st with
  | [] => 0
  | s :: rest => fold_left Z.max rest s
  end.

Definition totalPoints (st : app) : Z :=
  fold_left (λ sum h, sum + totalCompletions h) (habits st) 0 * 10.

(** ** Notifications *)

Record notification := Notification {
  n_id : string;
  n_title : string;
  n_message : string;
  n_timestamp : Z * Z;
  n_read : bool
}.

(** [addNotification], on the array [this.notifications]: [unshift],
    then the cut to 50. *)
Definition addNotification (now : clock) (title message : string)
    (notifications : list notification) : list notification :=
  let added :=
    Notification (pretty (date_now now)) title message (today now, time_of_day now) false
    :: notifications in
  if (50 <? length added)%nat then take 50 added else added.

(** ** Export of a backup file *)

Module BackupExport.
Import Backup.

(** The object [exportData] serialises; [JSON.parse] of the file gives
    it back. *)
Definition exportData (exportDate : string) (st : store) : json :=
  JObj [("habits", s_habits st); ("completions", s_completions st);
        ("settings", s_settings st); ("exportDate", JStr exportDate)].

End BackupExport.

(** ** What a call may not touch *)

(** Everything of a habit but its three counters. *)
Definition habit_meta (h : habit) :=
  (id h, name h, description h, category h, icon h, color h, target h,
   frequency h, selectedDays h, reminderTime h, createdAt h).

(** What [updateHabit] has to keep: identity, creation day and progress. *)
Definition habit_progress (h : habit) :=
  (id h, createdAt h, streak h, bestStreak h, totalCompletions h).

(** * Properties *)

(** ** The streak walk *)

Section StreakWalk.

Variable habitId : string.

Lemma is_completed_delete_ne (cs : gmap Z (gmap string event)) (d d' : Z) :
  d ≠ d' → is_completed (delete d cs) d' habitId = is_completed cs d' habitId.
Proof. intros Hne. unfold is_completed. by rewrite lookup_delete_ne. Qed.

Lemma is_completed_true_lookup (cs : gmap Z (gmap string event)) (d : Z) :
  is_completed cs d habitId = true → is_Some (cs !! d).
Proof. unfold is_completed. destruct (cs !! d); [eauto | discriminate]. Qed.

(** Days after the one the walk stands on are never read again. *)
Lemma streak_walk_delete fuel (cs : gmap Z (gmap string event)) (d d' acc : Z) :
  d' < d → streak_walk fuel (delete d cs) habitId d' acc = streak_walk fuel cs habitId d' acc.
Proof.
  revert d' acc. induction fuel as [|fuel IH]; intros d' acc Hlt; simpl; [done|].
  rewrite is_completed_delete_ne by lia.
  destruct (is_completed cs d' habitId); [|done].
  apply IH. lia.
Qed.

(** With more iterations allowed than the ledger has days, the walk
    stops by itself, after at most one step per day of the ledger. *)
Lemma streak_walk_total fuel (cs : gmap Z (gmap string event)) (d acc : Z) :
  (size cs < fuel)%nat →
  ∃ s, streak_walk fuel cs habitId d acc = Some s ∧ acc ≤ s ≤ acc + Z.of_nat (size cs).
Proof.
  revert cs d acc. induction fuel as [|fuel IH]; intros cs d acc Hsz; [lia|].
  simpl. destruct (is_completed cs d habitId) eqn:Hc.
  - destruct (is_completed_true_lookup _ _ Hc) as [day Hday].
    assert (size cs = S (size (delete d cs))) as Hdel.
    { rewrite <- (insert_delete_id cs d day Hday) at 1.
      apply map_size_insert_None, lookup_delete_eq. }
    rewrite <- (streak_walk_delete fuel cs d (d - 1) (acc + 1)) by lia.
    destruct (IH (delete d cs) (d - 1) (acc + 1)) as (s & Hs & Hb); [lia|].
    exists s. split; [done|]. lia.
  - exists acc. split; [done|]. lia.
Qed.

Lemma streak_walk_more fuel extra (cs : gmap Z (gmap string event)) (d acc s : Z) :
  streak_walk fuel cs habitId d acc = Some s →
  streak_walk (fuel + extra) cs habitId d acc = Some s.
Proof.
  revert d acc. induction fuel as [|fuel IH]; intros d acc; simpl; [done|].
  destruct (is_completed cs d habitId); [apply IH | done].
Qed.

(** What the result counts: the days [d], [d-1], ... that are completed,
    up to the first one that is not. *)
Lemma streak_walk_counts fuel (cs : gmap Z (gmap string event)) (d acc s : Z) :
  streak_walk fuel cs habitId d acc = Some s →
  acc ≤ s ∧
  (∀ k, 0 ≤ k < s - acc → is_completed cs (d - k) habitId = true) ∧
  is_completed cs (d - (s - acc)) habitId = false.
Proof.
  revert d acc. induction fuel as [|fuel IH]; intros d acc; simpl; [done|].
  destruct (is_completed cs d habitId) eqn:Hc.
  - intros Hw. destruct (IH _ _ Hw) as (Hle & Hall & Hstop).
    split; [lia|]. split.
    + intros k Hk. destruct (decide (k = 0)) as [->|Hk0].
      * by rewrite Z.sub_0_r.
      * replace (d - k) with (d - 1 - (k - 1)) by lia. apply Hall. lia.
    + by replace (d - (s - acc)) with (d - 1 - (s - (acc + 1))) by lia.
  - intros [= <-]. split; [lia|]. split; [intros k Hk; lia|].
    by rewrite Z.sub_diag, Z.sub_0_r.
Qed.

End StreakWalk.

(** ** C1: what [updateStreak] counts *)

(** C1, as the code has it: the streak written by [updateStreak] is the
    number [s] of consecutive completed calendar days ending today.  Each
    of the days today, today-1, ..., today-(s-1) is completed, the day
    today-s is not, and the walk stops there whether or not the habit was
    due on that day: the schedule of the habit is never read.  The best
    streak becomes the larger of its old value and [s]. *)
Theorem updateStreak_counts_consecutive_days (now : clock) (habitId : string) (st : app) :
  match find_habit habitId (habits st) with
  | None => updateStreak now habitId st = st
  | Some (i, h) =>
      ∃ s, updateStreak now habitId st
             = set_habits (<[i := set_streaks s (Z.max (bestStreak h) s) h]> (habits st)) st
           ∧ 0 ≤ s
           ∧ (∀ k, 0 ≤ k < s → is_completed (completions st) (today now - k) habitId = true)
           ∧ is_completed (completions st) (today now - s) habitId = false
  end.
Proof.
  unfold updateStreak. destruct (find_habit habitId (habits st)) as [[i h]|]; [|done].
  destruct (streak_walk_total habitId (S (size (completions st))) (completions st) (today now) 0)
    as (s & Hs & _); [lia|].
  rewrite Hs. exists s. split; [done|].
  destruct (streak_walk_counts _ _ _ _ _ _ Hs) as (Hle & Hall & Hstop).
  rewrite Z.sub_0_r in Hall, Hstop. done.
Qed.

(** C1, the scenario of the claim: the habit is scheduled Monday to Friday
    and was completed on each of those five days; Saturday is not a due
    day, and the streak computed on that Saturday is 0, not 5.  Marking
    the habit done on the next Monday, after the two days off, gives a
    streak of 1, not 6. *)
Lemma weekend_breaks_streak :
  let st := updateStreak (Scenario.at_noon Scenario.saturday) Scenario.hid Scenario.after_week in
  let next_monday := Scenario.at_noon (Scenario.monday + 7) in
  (frequency <$> habits Scenario.after_week !! 0%nat) = Some "custom"
  ∧ (selectedDays <$> habits Scenario.after_week !! 0%nat) = Some [1; 2; 3; 4; 5]
  ∧ Forall (λ d, is_completed (completions Scenario.after_week) d Scenario.hid = true)
           (seqZ Scenario.monday 5)
  ∧ Forall (λ h, isHabitActiveToday (Scenario.at_noon Scenario.saturday) h = false)
           (habits Scenario.after_week)
  ∧ (streak <$> habits st !! 0%nat) = Some 0
  ∧ (streak <$> habits st !! 0%nat) ≠ Some 5
  ∧ (streak <$> habits (toggleHabitCompletion next_monday Scenario.hid Scenario.after_week)
                !! 0%nat) = Some 1.
Proof.
  vm_compute. repeat split; try discriminate; repeat constructor.
Qed.

(** ** C2: the walk terminates *)

(** C2: for every ledger, habit and day the walk stops by itself: it
    returns a count [s] after at most one iteration per day of the ledger
    plus the one that finds the gap, and allowing more iterations does
    not change the count.  With an empty ledger the count is 0. *)
Theorem streak_walk_terminates (cs : gmap Z (gmap string event)) (habitId : string) (d : Z) :
  ∃ s, 0 ≤ s ≤ Z.of_nat (size cs)
       ∧ ∀ extra : nat, streak_walk (S (size cs) + extra) cs habitId d 0 = Some s.
Proof.
  destruct (streak_walk_total habitId (S (size cs)) cs d 0) as (s & Hs & Hb); [lia|].
  exists s. split; [lia|]. intros extra. by apply streak_walk_more.
Qed.

(** ** How one call of [toggleHabitCompletion] changes the state *)

Lemma find_habit_Some (habitId : string) (hs : list habit) (i : nat) (h : habit) :
  find_habit habitId hs = Some (i, h) → hs !! i = Some h ∧ id h = habitId.
Proof. unfold find_habit. rewrite list_find_Some. by intros (? & ? & _). Qed.

(** Writing back an object with the same id does not move what [find] finds. *)
Lemma find_habit_insert (habitId : string) (hs : list habit) (i : nat) (h h' : habit) :
  find_habit habitId hs = Some (i, h) → id h' = id h →
  find_habit habitId (<[i := h']> hs) = Some (i, h').
Proof.
  unfold find_habit. rewrite !list_find_Some. intros (Hi & Hid & Hfirst) Hsame.
  split; [|split].
  - apply list_lookup_insert_eq. by eapply lookup_lt_Some.
  - congruence.
  - intros j y Hj Hlt. rewrite list_lookup_insert_ne in Hj by lia. eauto.
Qed.

Lemma is_completed_entry (cs : gmap Z (gmap string event)) (d : Z) (habitId : string) :
  is_completed cs d habitId = bool_decide (is_Some (ledger_entry cs d habitId)).
Proof.
  unfold is_completed, ledger_entry. by destruct (cs !! d) as [day|].
Qed.

Lemma updateStreak_cases (now : clock) (habitId : string) (st : app) :
  match find_habit habitId (habits st) with
  | None => updateStreak now habitId st = st
  | Some (i, h) =>
      ∃ s, streak_walk (S (size (completions st))) (completions st) habitId (today now) 0 = Some s
           ∧ 0 ≤ s
           ∧ updateStreak now habitId st
             = set_habits (<[i := set_streaks s (Z.max (bestStreak h) s) h]> (habits st)) st
  end.
Proof.
  unfold updateStreak. destruct (find_habit habitId (habits st)) as [[i h]|]; [|done].
  destruct (streak_walk_total habitId (S (size (completions st))) (completions st) (today now) 0)
    as (s & Hs & Hb); [lia|].
  rewrite Hs. exists s. split; [done|]. split; [lia|done].
Qed.

Lemma toggle_not_found (now : clock) (habitId : string) (st : app) :
  find_habit habitId (habits st) = None →
  toggleHabitCompletion now habitId st
  = set_completions
      (match completions st !! today now with
       | Some _ => completions st
       | None => <[today now := ∅]> (completions st)
       end) st.
Proof. intros Hf. unfold toggleHabitCompletion. by rewrite Hf. Qed.

(** The habit found is replaced by [h'], nothing else moves in the array.
    If it was done today the entry goes and the total is decremented,
    floored at 0, the streaks staying as they were; otherwise the entry
    is written, the total incremented and the streaks recomputed. *)
Lemma toggle_found (now : clock) (habitId : string) (st : app) (i : nat) (h : habit) :
  find_habit habitId (habits st) = Some (i, h) →
  ∃ h', habits (toggleHabitCompletion now habitId st) = <[i := h']> (habits st)
        ∧ id h' = id h
        ∧ (∀ d hid, (d, hid) ≠ (today now, habitId) →
             ledger_entry (completions (toggleHabitCompletion now habitId st)) d hid
             = ledger_entry (completions st) d hid)
        ∧ if is_completed (completions st) (today now) habitId
          then totalCompletions h' = Z.max 0 (totalCompletions h - 1)
               ∧ streak h' = streak h ∧ bestStreak h' = bestStreak h
               ∧ is_completed (completions (toggleHabitCompletion now habitId st)) (today now) habitId = false
          else totalCompletions h' = totalCompletions h + 1
               ∧ 0 ≤ streak h' ≤ bestStreak h'
               ∧ is_completed (completions (toggleHabitCompletion now habitId st)) (today now) habitId = true.
Proof.
  intros Hf. unfold toggleHabitCompletion. rewrite Hf.
  set (cs1 := match completions st !! today now with
              | Some _ => completions st
              | None => <[today now := ∅]> (completions st)
              end).
  assert (∀ d hid, ledger_entry cs1 d hid = ledger_entry (completions st) d hid) as Hcs1.
  { intros d hid. unfold cs1, ledger_entry.
    destruct (completions st !! today now) eqn:Ht; [done|].
    destruct (decide (d = today now)) as [->|Hne].
    - by rewrite lookup_insert_eq, Ht.
    - by rewrite lookup_insert_ne. }
  assert (is_Some (cs1 !! today now)) as [day Hday].
  { unfold cs1. destruct (completions st !! today now) eqn:Ht; [eauto|].
    rewrite lookup_insert_eq. eauto. }
  assert (is_completed (completions st) (today now) habitId
          = bool_decide (is_Some (day !! habitId))) as ->.
  { transitivity (is_completed cs1 (today now) habitId).
    - rewrite !is_completed_entry. by rewrite Hcs1.
    - unfold is_completed. by rewrite Hday. }
  rewrite Hday. simpl.
  assert (∀ day' d hid, (d, hid) ≠ (today now, habitId) →
            (∀ k, k ≠ habitId → day' !! k = day !! k) →
            ledger_entry (<[today now := day']> cs1) d hid = ledger_entry (completions st) d hid)
    as Hframe.
  { intros day' d hid Hne Hday'. rewrite <- Hcs1. unfold ledger_entry.
    destruct (decide (d = today now)) as [->|Hd].
    - rewrite lookup_insert_eq, Hday. simpl. apply Hday'. congruence.
    - by rewrite lookup_insert_ne. }
  destruct (day !! habitId) as [ev|] eqn:Hev.
  - rewrite bool_decide_eq_true_2 by eauto. simpl.
    eexists. split; [done|]. split; [done|]. split.
    { intros d hid Hne. apply Hframe; [done|]. intros k Hk. by rewrite lookup_delete_ne. }
    split; [done|]. split; [done|]. split; [done|].
    unfold is_completed. rewrite lookup_insert_eq, lookup_delete_eq.
    apply bool_decide_eq_false. by intros [? ?].
  - rewrite bool_decide_eq_false_2 by (by intros [? ?]). simpl.
    set (h1 := set_totalCompletions (totalCompletions h + 1) h).
    set (mid := App (<[i := h1]> (habits st)) _ _ _ _).
    pose proof (updateStreak_cases now habitId mid) as Hup.
    replace (find_habit habitId (habits mid)) with (Some (i, h1)) in Hup
      by (symmetry; by apply find_habit_insert with h).
    destruct Hup as (s & _ & Hs & ->). simpl.
    eexists. split; [apply list_insert_insert_eq|]. split; [done|]. split.
    { intros d hid Hne. apply Hframe; [done|]. intros k Hk. by rewrite lookup_insert_ne. }
    split; [done|]. split; [simpl; lia|].
    unfold is_completed. rewrite lookup_insert_eq, lookup_insert_eq.
    apply bool_decide_eq_true. eauto.
Qed.

Lemma find_habit_None (habitId : string) (hs : list habit) :
  find_habit habitId hs = None ↔ (habitId ∉ id <$> hs).
Proof.
  unfold find_habit. rewrite list_find_None, Forall_forall, list_elem_of_fmap. split.
  - intros Hall (h & -> & Hin). by apply (Hall h).
  - intros Hno h Hin Hid. apply Hno. eauto.
Qed.

(** ** C3: the counters stay in range *)

Lemma toggle_keeps_counters (now : clock) (habitId : string) (st : app) (j : nat) (h : habit) :
  habits st !! j = Some h → counters_ok h →
  ∃ h', habits (toggleHabitCompletion now habitId st) !! j = Some h'
        ∧ id h' = id h ∧ counters_ok h'.
Proof.
  intros Hj Hok. destruct (find_habit habitId (habits st)) as [[i hf]|] eqn:Hf.
  - destruct (toggle_found now habitId st i hf Hf) as (h' & -> & Hid & _ & Hcase).
    destruct (find_habit_Some _ _ _ _ Hf) as [Hi _].
    destruct (decide (i = j)) as [->|Hne].
    + assert (hf = h) as -> by congruence.
      exists h'. split; [apply list_lookup_insert_eq; by eapply lookup_lt_Some|].
      split; [done|]. unfold counters_ok in *.
      destruct (is_completed (completions st) (today now) habitId); lia.
    + exists h. by rewrite list_lookup_insert_ne.
  - rewrite toggle_not_found by done. by exists h.
Qed.

Lemma toggle_all_keeps_counters (calls : list (clock * string)) (st : app) (j : nat) (h : habit) :
  habits st !! j = Some h → counters_ok h →
  ∃ h', habits (toggle_all calls st) !! j = Some h' ∧ id h' = id h ∧ counters_ok h'.
Proof.
  revert st h. induction calls as [|[now habitId] calls IH]; intros st h Hj Hok; simpl.
  - by exists h.
  - destruct (toggle_keeps_counters now habitId st j h Hj Hok) as (h1 & Hj1 & Hid1 & Hok1).
    destruct (IH _ _ Hj1 Hok1) as (h2 & Hj2 & Hid2 & Hok2).
    exists h2. split; [done|]. split; [congruence|done].
Qed.

(** C3: a habit is created by [addHabit] in any state, its counters being
    zero; then any calls of [toggleHabitCompletion] follow, on whatever
    habit and day.  After each of them (after the first [n] calls, for
    every [n]) the habit created is still in its place in the array and
    has bestStreak ≥ streak ≥ 0 and totalCompletions ≥ 0. *)
Theorem toggles_keep_counters_in_range
    (now0 : clock) (hd : habitData) (st : app) (calls : list (clock * string)) (n : nat) :
  ∃ h, habits (toggle_all (take n calls) (addHabit now0 hd st)) !! length (habits st) = Some h
       ∧ id h = id (new_habit now0 hd)
       ∧ streak h ≤ bestStreak h ∧ 0 ≤ streak h ∧ 0 ≤ totalCompletions h.
Proof.
  destruct (toggle_all_keeps_counters (take n calls) (addHabit now0 hd st)
              (length (habits st)) (new_habit now0 hd)) as (h & Hh & Hid & Hok).
  - simpl. by apply list_lookup_middle.
  - unfold counters_ok. simpl. lia.
  - exists h. unfold counters_ok in Hok. split; [done|]. split; [done|]. lia.
Qed.

(** ** C10: a habit id that is not in the collection *)

(** C10: when no habit has the id, the call leaves the array of habits as
    it was and no entry of the ledger, for any day and any habit, appears
    or disappears; the ledger itself is untouched, or it gains an empty
    map under today when today had none. *)
Theorem toggle_unknown_habit (now : clock) (habitId : string) (st : app) :
  find_habit habitId (habits st) = None →
  let st' := toggleHabitCompletion now habitId st in
  habits st' = habits st
  ∧ (∀ d hid, ledger_entry (completions st') d hid = ledger_entry (completions st) d hid)
  ∧ (completions st' = completions st
     ∨ (completions st !! today now = None
        ∧ completions st' = <[today now := ∅]> (completions st))).
Proof.
  intros Hf st'. unfold st'. rewrite toggle_not_found by done. simpl.
  split; [done|]. destruct (completions st !! today now) as [day|] eqn:Ht.
  - split; [done|]. by left.
  - split; [|by right]. intros d hid. unfold ledger_entry.
    destruct (decide (d = today now)) as [->|Hne].
    + by rewrite lookup_insert_eq, Ht.
    + by rewrite lookup_insert_ne.
Qed.

Lemma toggle_unknown_habit_witness :
  let st' := toggleHabitCompletion (Scenario.at_noon 9) "nobody" Scenario.after_week in
  habits st' = habits Scenario.after_week
  ∧ (∀ d hid, ledger_entry (completions st') d hid
              = ledger_entry (completions Scenario.after_week) d hid)
  ∧ (completions st' = completions Scenario.after_week
     ∨ (completions Scenario.after_week !! today (Scenario.at_noon 9) = None
        ∧ completions st' = <[today (Scenario.at_noon 9) := ∅]> (completions Scenario.after_week))).
Proof.
  apply (toggle_unknown_habit (Scenario.at_noon 9) "nobody" Scenario.after_week).
  vm_compute. reflexivity.
Defined.

(** ** C4: two calls in a row *)

(** C4, as the code has it: two calls in succession for the same habit on
    the same day put the completion state of (day, habit) back, leave
    every other entry of the ledger alone, and put every total back,
    provided the total of the habit found is not negative and is at least
    1 when the habit starts out done on that day.  (The decrement is
    floored at 0, so a habit that is done with a total of 0 ends at 1.) *)
Theorem toggle_twice_restores
    (now1 now2 : clock) (habitId : string) (st : app) (i : nat) (h : habit) :
  today now2 = today now1 →
  find_habit habitId (habits st) = Some (i, h) →
  0 ≤ totalCompletions h →
  (is_completed (completions st) (today now1) habitId = true → 1 ≤ totalCompletions h) →
  let st2 := toggleHabitCompletion now2 habitId (toggleHabitCompletion now1 habitId st) in
  is_completed (completions st2) (today now1) habitId
  = is_completed (completions st) (today now1) habitId
  ∧ (∀ d hid, (d, hid) ≠ (today now1, habitId) →
       ledger_entry (completions st2) d hid = ledger_entry (completions st) d hid)
  ∧ totalCompletions <$> habits st2 = totalCompletions <$> habits st.
Proof.
  intros Hday Hf Hnonneg Hdone st2. unfold st2.
  set (st1 := toggleHabitCompletion now1 habitId st).
  destruct (toggle_found now1 habitId st i h Hf) as (h1 & Hhs1 & Hid1 & Hframe1 & Hcase1).
  fold st1 in Hhs1, Hframe1, Hcase1.
  assert (find_habit habitId (habits st1) = Some (i, h1)) as Hf1.
  { rewrite Hhs1. by apply find_habit_insert with h. }
  destruct (toggle_found now2 habitId st1 i h1 Hf1) as (h2 & Hhs2 & Hid2 & Hframe2 & Hcase2).
  rewrite Hday in Hframe2, Hcase2.
  destruct (find_habit_Some _ _ _ _ Hf) as [Hi _].
  assert (totalCompletions h2 = totalCompletions h
          ∧ is_completed (completions (toggleHabitCompletion now2 habitId st1)) (today now1) habitId
            = is_completed (completions st) (today now1) habitId) as [Htot Hstate].
  { destruct (is_completed (completions st) (today now1) habitId) eqn:Hc.
    - destruct Hcase1 as (Ht1 & _ & _ & Hc1). rewrite Hc1 in Hcase2.
      destruct Hcase2 as (Ht2 & _ & Hc2). split; [|done].
      specialize (Hdone eq_refl). lia.
    - destruct Hcase1 as (Ht1 & _ & Hc1). rewrite Hc1 in Hcase2.
      destruct Hcase2 as (Ht2 & _ & _ & Hc2). split; [|done]. lia. }
  split; [done|]. split.
  - intros d hid Hne. rewrite Hframe2 by done. by apply Hframe1.
  - rewrite Hhs2, Hhs1, list_insert_insert_eq, list_fmap_insert, Htot.
    apply list_insert_id. by rewrite list_lookup_fmap, Hi.
Qed.

Lemma toggle_twice_restores_witness :
  let now := Scenario.at_noon Scenario.saturday in
  let st2 := toggleHabitCompletion now Scenario.hid
               (toggleHabitCompletion now Scenario.hid Scenario.after_week) in
  is_completed (completions st2) (today now) Scenario.hid
  = is_completed (completions Scenario.after_week) (today now) Scenario.hid
  ∧ (∀ d hid, (d, hid) ≠ (today now, Scenario.hid) →
       ledger_entry (completions st2) d hid
       = ledger_entry (completions Scenario.after_week) d hid)
  ∧ totalCompletions <$> habits st2 = totalCompletions <$> habits Scenario.after_week.
Proof.
  intros now.
  eapply (toggle_twice_restores now now Scenario.hid Scenario.after_week 0%nat).
  - reflexivity.
  - vm_compute. reflexivity.
  - vm_compute. discriminate.
  - intros _. vm_compute. discriminate.
Defined.

(** C4, where the claim fails: the habit is done today and its total
    reads 0; unmarking keeps the total at 0 and marking again makes it 1.
    The completion state does come back. *)
Lemma toggle_twice_total_drifts :
  let now := Scenario.at_noon Scenario.saturday in
  let st2 := toggleHabitCompletion now "h1" (toggleHabitCompletion now "h1" Scenario.restored) in
  is_completed (completions Scenario.restored) (today now) "h1" = true
  ∧ is_completed (completions st2) (today now) "h1" = true
  ∧ totalCompletions <$> habits Scenario.restored = [0]
  ∧ totalCompletions <$> habits st2 = [1]
  ∧ totalCompletions <$> habits st2 ≠ totalCompletions <$> habits Scenario.restored.
Proof.
  vm_compute. repeat split; discriminate.
Qed.

(** ** C7: deleting a habit *)

Lemma deleteHabit_declined (habitId : string) (st : app) :
  deleteHabit false habitId st = st.
Proof. done. Qed.

(** C7: once the user has confirmed, no habit of the collection has the
    id any more, the habits with another id are all kept, no day of the
    ledger has an entry for the id, and the entry of any other habit on
    any day is what it was. *)
Theorem deleteHabit_purges (habitId : string) (st : app) :
  let st' := deleteHabit true habitId st in
  (habitId ∉ id <$> habits st')
  ∧ (∀ h, h ∈ habits st' ↔ h ∈ habits st ∧ id h ≠ habitId)
  ∧ (∀ d, ledger_entry (completions st') d habitId = None)
  ∧ (∀ d hid, hid ≠ habitId →
       ledger_entry (completions st') d hid = ledger_entry (completions st) d hid)
  ∧ dom (completions st') = dom (completions st).
Proof.
  simpl. split; [|split; [|split; [|split]]].
  - rewrite list_elem_of_fmap. intros (h & -> & Hin).
    apply list_elem_of_filter in Hin as [Hne _]. by apply Hne.
  - intros h. rewrite list_elem_of_filter. tauto.
  - intros d. unfold ledger_entry. rewrite lookup_fmap.
    destruct (completions st !! d) as [day|]; simpl; [|done]. apply lookup_delete_eq.
  - intros d hid Hne. unfold ledger_entry. rewrite lookup_fmap.
    destruct (completions st !! d) as [day|]; simpl; [|done]. by apply lookup_delete_ne.
  - apply dom_fmap_L.
Qed.

(** ** C8: adding a habit *)

Example parseInt_reads_prefix :
  ParseInt.parseInt "3" = Some 3 ∧ ParseInt.parseInt "  42 times" = Some 42
  ∧ ParseInt.parseInt "-5" = Some (-5) ∧ ParseInt.parseInt "2.5" = Some 2
  ∧ ParseInt.parseInt "0x1f" = Some 31 ∧ ParseInt.parseInt "" = None
  ∧ ParseInt.parseInt "many" = None ∧ ParseInt.parseInt "0" = Some 0.
Proof. repeat split. Qed.

Lemma or_one_cases (s : string) :
  (0 < ParseInt.or_one s)
  ∨ (ParseInt.or_one s < 0 ∧ ParseInt.parseInt s = Some (ParseInt.or_one s)).
Proof.
  unfold ParseInt.or_one. destruct (ParseInt.parseInt s) as [v|]; [|left; lia].
  destruct (Z.eqb_spec v 0); [left; lia|].
  destruct (Z.lt_total v 0) as [|[|]]; [by right | lia | by left].
Qed.

(** C8, as the code has it: the new habit goes to the end of the
    collection and nothing else changes.  Its target is an integer other
    than 0: what [parseInt] reads from the input, or 1 when that is NaN
    or 0; so it is positive, except that an input read as a negative
    number is kept as it is.  Its days are the seven weekdays when none
    were given, [createdAt] is today, the three counters are 0. *)
Theorem addHabit_appends_new_habit (now : clock) (hd : habitData) (st : app) :
  let h := new_habit now hd in
  habits (addHabit now hd st) = habits st ++ [h]
  ∧ completions (addHabit now hd st) = completions st
  ∧ target h = match ParseInt.parseInt (d_target hd) with
               | None | Some 0 => 1
               | Some v => v
               end
  ∧ (0 < target h
     ∨ (target h < 0 ∧ ParseInt.parseInt (d_target hd) = Some (target h)))
  ∧ selectedDays h = match d_selectedDays hd with
                     | None => [0; 1; 2; 3; 4; 5; 6]
                     | Some days => days
                     end
  ∧ createdAt h = today now
  ∧ streak h = 0 ∧ bestStreak h = 0 ∧ totalCompletions h = 0.
Proof.
  simpl. split; [done|]. split; [done|]. split.
  { unfold ParseInt.or_one. destruct (ParseInt.parseInt (d_target hd)) as [[|p|p]|]; done. }
  split; [apply or_one_cases|].
  split; [by destruct (d_selectedDays hd)|done].
Qed.

(** C8, where the claim fails: the form field holds the text -5, which
    [parseInt] reads as -5, a truthy number; the habit gets target -5. *)
Lemma addHabit_negative_target :
  let hd := HabitData "Walk" None "health" "fa-walking" "#4facfe" "-5" "daily" None None in
  let st := addHabit (Scenario.at_noon Scenario.monday) hd Scenario.fresh in
  (target <$> habits st) = [(-5)%Z] ∧ ¬ (∀ h, h ∈ habits st → 0 < target h).
Proof.
  split; [reflexivity|].
  intros Hpos. specialize (Hpos _ (list_elem_of_here _ _)). vm_compute in Hpos. discriminate.
Qed.

(** ** C5: the correlation is symmetric *)

Lemma pSum_swap (c1 c2 : list R) (a : R) :
  fold_left (λ a bc, a + bc.1 * bc.2)%R (zip c1 c2) a
  = fold_left (λ a bc, a + bc.1 * bc.2)%R (zip c2 c1) a.
Proof.
  revert c2 a. induction c1 as [|b c1 IH]; intros [|c c2] a; simpl; try done.
  rewrite (Rmult_comm b c). apply IH.
Qed.

Lemma pearson_sym (c1 c2 : list R) :
  length c1 = length c2 → pearson c1 c2 = pearson c2 c1.
Proof.
  intros Hlen. unfold pearson. rewrite Hlen.
  destruct (decide (length c2 = 0%nat)); [done|].
  rewrite (pSum_swap c1 c2).
  set (sum1 := fold_left Rplus c1 0%R). set (sum2 := fold_left Rplus c2 0%R).
  set (v1 := (_ - sum1 * sum1 / _)%R). set (v2 := (_ - sum2 * sum2 / _)%R).
  rewrite (Rmult_comm sum2 sum1), (Rmult_comm v2 v1). done.
Qed.

Lemma calculateCorrelation_sym (now : clock) (a b : string) (st : app) :
  calculateCorrelation now a b st = calculateCorrelation now b a st.
Proof.
  unfold calculateCorrelation, completionVector. apply pearson_sym.
  by rewrite !length_fmap.
Qed.

Lemma matrix_entry (now : clock) (st : app) (top : list habit) (i j : nat) :
  entry (matrix_of now st top) i j
  = habit1 ← top !! i; habit2 ← top !! j;
    Some (if decide (id habit1 = id habit2) then 1%R
          else calculateCorrelation now (id habit1) (id habit2) st).
Proof.
  unfold entry, matrix_of. rewrite list_lookup_fmap.
  destruct (top !! i) as [habit1|]; simpl; [|done].
  rewrite list_lookup_fmap. by destruct (top !! j).
Qed.

(** C5: for any two habit ids, and whatever range is selected in the
    state, [calculateCorrelation] gives the same number in both orders;
    and the matrix of the heat map, when it is drawn (two habits or
    more), has equal entries at (i, j) and (j, i) and 1 at every (i, i)
    of its diagonal. *)
Theorem correlation_symmetric_with_unit_diagonal (now : clock) (st : app) (a b : string) :
  calculateCorrelation now a b st = calculateCorrelation now b a st
  ∧ match correlationMatrix now st with
    | None => (length (habits st) < 2)%nat
    | Some m =>
        length m = length (topHabits st)
        ∧ ∀ i j, entry m i j = entry m j i
                 ∧ entry m i i = (λ _, 1%R) <$> topHabits st !! i
    end.
Proof.
  split; [apply calculateCorrelation_sym|].
  unfold correlationMatrix. destruct (Nat.ltb_spec (length (habits st)) 2); [done|].
  split; [unfold matrix_of; by rewrite length_fmap|].
  intros i j. rewrite !matrix_entry. split.
  - destruct (topHabits st !! i) as [h1|], (topHabits st !! j) as [h2|]; simpl; try done.
    f_equal. destruct (decide (id h1 = id h2)), (decide (id h2 = id h1)); try congruence.
    apply calculateCorrelation_sym.
  - destruct (topHabits st !! i) as [h1|]; simpl; [|done].
    by destruct (decide (id h1 = id h1)).
Qed.

(** Scenario 3 of the specification, on the arithmetic alone: two equal
    vectors with some variance correlate at 1. *)
Example pearson_identical_vectors :
  pearson [1; 1; 0; 1; 0]%R [1; 1; 0; 1; 0]%R = 1%R.
Proof.
  unfold pearson. simpl.
  replace ((0 + 1 * 1 + 1 * 1 + 0 * 0 + 1 * 1 + 0 * 0
            - (0 + 1 + 1 + 0 + 1 + 0) * (0 + 1 + 1 + 0 + 1 + 0) / (1 + 1 + 1 + 1 + 1))%R)
    with (6 / 5)%R by lra.
  rewrite sqrt_square by lra.
  destruct (Req_EM_T (6 / 5) 0); [lra|]. field.
Qed.

(** ** C6: zero denominators *)

Lemma sum_constant (v : R) (c : list R) (acc : R) :
  Forall (λ x, x = v) c → fold_left Rplus c acc = (acc + INR (length c) * v)%R.
Proof.
  intros Hc. revert acc. induction Hc as [|x c -> _ IH]; intros acc.
  - simpl. lra.
  - cbn [fold_left]. rewrite IH, length_cons, S_INR. lra.
Qed.

Lemma sumSq_constant (v : R) (c : list R) (acc : R) :
  Forall (λ x, x = v) c →
  fold_left (λ a b, a + b * b)%R c acc = (acc + INR (length c) * (v * v))%R.
Proof.
  intros Hc. revert acc. induction Hc as [|x c -> _ IH]; intros acc.
  - simpl. lra.
  - cbn [fold_left]. rewrite IH, length_cons, S_INR. lra.
Qed.

(** A constant vector has no variance. *)
Lemma variance_constant (v : R) (c : list R) :
  Forall (λ x, x = v) c → length c ≠ 0%nat →
  (fold_left (λ a b, a + b * b) c 0
   - fold_left Rplus c 0 * fold_left Rplus c 0 / INR (length c) = 0)%R.
Proof.
  intros Hc Hn. rewrite sum_constant with (v := v), sumSq_constant with (v := v) by done.
  field. by apply not_0_INR.
Qed.

Lemma pearson_constant_l (v : R) (c1 c2 : list R) :
  Forall (λ x, x = v) c1 → pearson c1 c2 = 0%R.
Proof.
  intros Hc. unfold pearson. destruct (decide (length c1 = 0%nat)) as [|Hn]; [done|].
  rewrite (variance_constant v c1 Hc Hn), Rmult_0_l, sqrt_0.
  by destruct (Req_EM_T 0 0).
Qed.

Lemma completionVector_constant (cs : gmap Z (gmap string event)) (habitId : string)
    (dateRange : list Z) (b : bool) :
  Forall (λ d, is_completed cs d habitId = b) dateRange →
  Forall (λ x, x = if b then 1%R else 0%R) (completionVector cs habitId dateRange).
Proof.
  intros Hall. unfold completionVector. rewrite Forall_fmap.
  eapply Forall_impl; [exact Hall|]. intros d Hd. simpl. by rewrite Hd.
Qed.

(** C6: each of the four metrics is 0 when its denominator is 0:
    the completion rate when no habit is due today; the consistency score
    when the habit had no due day in the window; the target achievement
    when the targets of the category add up to 0 over the window; the
    correlation when the range is empty or when one of the two habits is
    done on every day of the range or on none (no variance).  All four
    are total functions: nothing is raised. *)
Theorem zero_denominator_gives_zero
    (now : clock) (st : app) (h : habit) (hs : list habit) (a b : string) (flag : bool) :
  (todaysHabits now st = [] → completionRate now st = 0)
  ∧ (getLast30DaysPossible now h = 0 → consistencyScore now h st = 0%Q)
  ∧ (targetCompletions now hs = 0 → targetAchievement now hs st = 0%Q)
  ∧ (getDateRangeData now st = [] → calculateCorrelation now a b st = 0%R)
  ∧ (Forall (λ d, is_completed (completions st) d a = flag) (getDateRangeData now st) →
       calculateCorrelation now a b st = 0%R ∧ calculateCorrelation now b a st = 0%R).
Proof.
  split; [|split; [|split; [|split]]].
  - intros Hnone. unfold completionRate. by rewrite Hnone.
  - intros Hz. unfold consistencyScore. by rewrite Hz.
  - intros Hz. unfold targetAchievement. by rewrite Hz.
  - intros Hz. unfold calculateCorrelation. by rewrite Hz.
  - intros Hall. rewrite (calculateCorrelation_sym now b a).
    assert (calculateCorrelation now a b st = 0%R) as Hzero; [|by split].
    unfold calculateCorrelation. eapply pearson_constant_l.
    by apply completionVector_constant.
Qed.

Lemma zero_denominator_gives_zero_witness :
  let now := Scenario.at_noon Scenario.saturday in
  completionRate now Scenario.after_week = 0
  ∧ consistencyScore now Scenario.unscheduled Scenario.after_week = 0%Q
  ∧ targetAchievement now [Scenario.unscheduled] Scenario.after_week = 0%Q
  ∧ calculateCorrelation now "h2" Scenario.hid Scenario.no_range = 0%R
  ∧ calculateCorrelation now "h2" Scenario.hid Scenario.after_week = 0%R
  ∧ calculateCorrelation now Scenario.hid "h2" Scenario.after_week = 0%R.
Proof.
  intros now.
  destruct (zero_denominator_gives_zero now Scenario.after_week Scenario.unscheduled
              [Scenario.unscheduled] "h2" Scenario.hid false) as (H1 & H2 & H3 & _ & H5).
  destruct (zero_denominator_gives_zero now Scenario.no_range Scenario.unscheduled
              [Scenario.unscheduled] "h2" Scenario.hid false) as (_ & _ & _ & H4 & _).
  split; [apply H1; reflexivity|].
  split; [apply H2; reflexivity|].
  split; [apply H3; reflexivity|].
  split; [apply H4; reflexivity|].
  apply H5. apply (bool_decide_unpack _). vm_compute. reflexivity.
Defined.

(** ** C9: importing a backup *)

Module BackupFacts.
Import Backup.

Lemma truthy_is_Some (v : option json) : truthy v = true → is_Some v.
Proof. destruct v; [eauto | discriminate]. Qed.

(** C9: a payload is taken over only when it has both keys: if the
    success toast is shown, or if the state has changed at all, then
    [habits] and [completions] are both members of the payload.  When
    one of them is missing the state is exactly what it was and the
    error toast is shown, the error caught being 'Invalid data format'
    unless the payload is null (then the read of the key throws).  A
    text that does not parse fails the same way. *)
Theorem importData_checks_keys (render_throws : store → bool) (data : json) (st : store) :
  let r := importData render_throws (Some data) st in
  (r.2 = ImportedSuccessfully → has_keys data)
  ∧ (r.1 ≠ st → has_keys data)
  ∧ (¬ has_keys data →
       r.1 = st
       ∧ ∃ e, r.2 = ErrorImporting e ∧ (data ≠ JNull → e = InvalidDataFormat))
  ∧ importData render_throws None st = (st, ErrorImporting SyntaxError).
Proof.
  unfold importData, try_import.
  destruct data as [| | | | |members]; simpl;
    try (split; [done|]; split; [done|]; split; [|done]; intros _; split; [done|];
         eexists; split; [done|]; done).
  destruct (truthy (member "habits" members)) eqn:Hh;
    [destruct (truthy (member "completions" members)) eqn:Hc|].
  - assert (is_Some (member "habits" members) ∧ is_Some (member "completions" members))
      as Hkeys by (split; by apply truthy_is_Some).
    split; [done|]. split; [done|]. split; [|done]. intros Hno. by destruct Hno.
  - simpl. split; [done|]. split; [done|]. split; [|done].
    intros _. split; [done|]. by eexists.
  - simpl. split; [done|]. split; [done|]. split; [|done].
    intros _. split; [done|]. by eexists.
Qed.

Lemma importData_checks_keys_witness :
  let st := Store (JArr [JObj [("id", JStr "h1")]]) (JObj []) (JObj [("theme", JStr "light")]) in
  let partial := JObj [("habits", JArr [])] in
  let full := JObj [("habits", JArr []); ("completions", JObj [])] in
  ((importData (λ _, false) (Some partial) st).1 = st
   ∧ ∃ e, (importData (λ _, false) (Some partial) st).2 = ErrorImporting e
          ∧ (partial ≠ JNull → e = InvalidDataFormat))
  ∧ has_keys full.
Proof.
  intros st partial full. split.
  - apply (importData_checks_keys (λ _, false) partial st).
    simpl. intros [_ [v Hv]]. vm_compute in Hv. discriminate.
  - destruct (importData_checks_keys (λ _, false) full st) as (Hok & _).
    apply Hok. reflexivity.
Defined.

End BackupFacts.

(** * Further properties of the code *)

(** ** Calls of [toggleHabitCompletion], in full *)

Lemma streak_walk_positive fuel (cs : gmap Z (gmap string event)) (habitId : string) (d s : Z) :
  streak_walk fuel cs habitId d 0 = Some s → is_completed cs d habitId = true → 1 ≤ s.
Proof.
  intros Hw Hc. destruct (streak_walk_counts habitId fuel cs d 0 s Hw) as (Hle & _ & Hstop).
  destruct (decide (s = 0)) as [->|]; [|lia].
  replace (d - (0 - 0)) with d in Hstop by lia. congruence.
Qed.

(** The habit written back, exactly.  Unmarking changes the total alone;
    marking adds 1 to the total and stores the count [s] of the walk over
    the ledger as it is after the call. *)
Lemma toggle_found_exact (now : clock) (habitId : string) (st : app) (i : nat) (h : habit) :
  find_habit habitId (habits st) = Some (i, h) →
  let st' := toggleHabitCompletion now habitId st in
  if is_completed (completions st) (today now) habitId
  then habits st' = <[i := set_totalCompletions (Z.max 0 (totalCompletions h - 1)) h]> (habits st)
       ∧ is_completed (completions st') (today now) habitId = false
  else ∃ s, habits st'
            = <[i := set_streaks s (Z.max (bestStreak h) s)
                       (set_totalCompletions (totalCompletions h + 1) h)]> (habits st)
            ∧ streak_walk (S (size (completions st'))) (completions st') habitId (today now) 0
              = Some s
            ∧ 1 ≤ s
            ∧ is_completed (completions st') (today now) habitId = true.
Proof.
  intros Hf st'. unfold st', toggleHabitCompletion. rewrite Hf.
  set (cs1 := match completions st !! today now with
              | Some _ => completions st
              | None => <[today now := ∅]> (completions st)
              end).
  assert (is_completed cs1 (today now) habitId
          = is_completed (completions st) (today now) habitId) as Hsame.
  { unfold cs1, is_completed. destruct (completions st !! today now) eqn:Ht;
      [by rewrite Ht|].
    by rewrite lookup_insert_eq. }
  assert (is_Some (cs1 !! today now)) as [day Hday].
  { unfold cs1. destruct (completions st !! today now) eqn:Ht; [rewrite Ht; eauto|].
    rewrite lookup_insert_eq. eauto. }
  rewrite <- Hsame. unfold is_completed at 1. rewrite Hday. simpl.
  destruct (day !! habitId) as [ev|] eqn:Hev.
  - rewrite bool_decide_eq_true_2 by eauto. simpl. split; [done|].
    unfold is_completed. rewrite lookup_insert_eq, lookup_delete_eq.
    apply bool_decide_eq_false. by intros [? ?].
  - rewrite bool_decide_eq_false_2 by (by intros [? ?]). simpl.
    set (h1 := set_totalCompletions (totalCompletions h + 1) h).
    set (mid := App (<[i := h1]> (habits st)) _ _ _ _).
    pose proof (updateStreak_cases now habitId mid) as Hup.
    replace (find_habit habitId (habits mid)) with (Some (i, h1)) in Hup
      by (symmetry; by apply find_habit_insert with h).
    destruct Hup as (s & Hwalk & Hs & ->). simpl.
    assert (is_completed (completions mid) (today now) habitId = true) as Hdone.
    { unfold is_completed. simpl. rewrite lookup_insert_eq, lookup_insert_eq.
      apply bool_decide_eq_true. eauto. }
    exists s. split; [apply list_insert_insert_eq|]. split; [done|].
    split; [by eapply streak_walk_positive|done].
Qed.

Lemma habit_meta_set_totalCompletions (n : Z) (h : habit) :
  habit_meta (set_totalCompletions n h) = habit_meta h.
Proof. done. Qed.

Lemma habit_meta_set_streaks (s b : Z) (h : habit) :
  habit_meta (set_streaks s b h) = habit_meta h.
Proof. done. Qed.

Lemma fmap_insert_same {A B} (f : A → B) (l : list A) (i : nat) (x y : A) :
  l !! i = Some x → f y = f x → f <$> <[i := y]> l = f <$> l.
Proof.
  intros Hi Hf. rewrite list_fmap_insert, Hf. apply list_insert_id.
  by rewrite list_lookup_fmap, Hi.
Qed.

Lemma toggle_ledger_frame (now : clock) (habitId : string) (st : app) (d : Z) (hid : string) :
  (d, hid) ≠ (today now, habitId) →
  ledger_entry (completions (toggleHabitCompletion now habitId st)) d hid
  = ledger_entry (completions st) d hid.
Proof.
  intros Hne. destruct (find_habit habitId (habits st)) as [[i h]|] eqn:Hf.
  - destruct (toggle_found now habitId st i h Hf) as (h' & _ & _ & Hframe & _). by apply Hframe.
  - rewrite toggle_not_found by done. simpl. unfold ledger_entry.
    destruct (completions st !! today now) as [day|] eqn:Ht; [done|].
    destruct (decide (d = today now)) as [->|Hd].
    + by rewrite lookup_insert_eq, Ht.
    + by rewrite lookup_insert_ne.
Qed.

(** X1: a call of [toggleHabitCompletion], for any id and at any time,
    changes nothing of any habit but its three counters (the habits stay
    as many, in the same order, with the same id, name, target, schedule
    and creation day), and no entry of the ledger other than the one of
    today for that id. *)
Theorem toggle_touches_counters_and_one_entry (now : clock) (habitId : string) (st : app) :
  let st' := toggleHabitCompletion now habitId st in
  habit_meta <$> habits st' = habit_meta <$> habits st
  ∧ ∀ d hid, (d, hid) ≠ (today now, habitId) →
      ledger_entry (completions st') d hid = ledger_entry (completions st) d hid.
Proof.
  split; [|intros d hid; apply toggle_ledger_frame].
  destruct (find_habit habitId (habits st)) as [[i h]|] eqn:Hf.
  - destruct (find_habit_Some _ _ _ _ Hf) as [Hi _].
    pose proof (toggle_found_exact now habitId st i h Hf) as Hex. cbv zeta in Hex.
    destruct (is_completed (completions st) (today now) habitId).
    + destruct Hex as [-> _]. by apply fmap_insert_same with h.
    + destruct Hex as (s & -> & _). by apply fmap_insert_same with h.
  - by rewrite toggle_not_found.
Qed.

(** X2: for a habit of the collection the call flips the state of today:
    done becomes not done and not done becomes done. *)
Theorem toggle_flips_today (now : clock) (habitId : string) (st : app) (i : nat) (h : habit) :
  find_habit habitId (habits st) = Some (i, h) →
  is_completed (completions (toggleHabitCompletion now habitId st)) (today now) habitId
  = negb (is_completed (completions st) (today now) habitId).
Proof.
  intros Hf. pose proof (toggle_found_exact now habitId st i h Hf) as Hex. cbv zeta in Hex.
  destruct (is_completed (completions st) (today now) habitId).
  - by destruct Hex as [_ ->].
  - by destruct Hex as (s & _ & _ & _ & ->).
Qed.

Lemma toggle_flips_today_witness :
  let now := Scenario.at_noon Scenario.saturday in
  is_completed (completions (toggleHabitCompletion now Scenario.hid Scenario.after_week))
               (today now) Scenario.hid
  = negb (is_completed (completions Scenario.after_week) (today now) Scenario.hid).
Proof.
  intros now. eapply (toggle_flips_today now Scenario.hid Scenario.after_week 0%nat).
  vm_compute. reflexivity.
Defined.

(** X3: marking a habit that is not done today adds 1 to its total and
    stores a streak of at least 1: the number of completed days in a row
    that end today, today included; the best streak is the larger of its
    old value and that streak. *)
Theorem marking_counts_today (now : clock) (habitId : string) (st : app) (i : nat) (h : habit) :
  find_habit habitId (habits st) = Some (i, h) →
  is_completed (completions st) (today now) habitId = false →
  let st' := toggleHabitCompletion now habitId st in
  ∃ h', habits st' !! i = Some h'
        ∧ totalCompletions h' = totalCompletions h + 1
        ∧ 1 ≤ streak h'
        ∧ bestStreak h' = Z.max (bestStreak h) (streak h')
        ∧ (∀ k, 0 ≤ k < streak h' → is_completed (completions st') (today now - k) habitId = true)
        ∧ is_completed (completions st') (today now - streak h') habitId = false.
Proof.
  intros Hf Hc st'. pose proof (toggle_found_exact now habitId st i h Hf) as Hex.
  cbv zeta in Hex. rewrite Hc in Hex. destruct Hex as (s & Hhs & Hwalk & Hpos & _).
  destruct (find_habit_Some _ _ _ _ Hf) as [Hi _].
  destruct (streak_walk_counts _ _ _ _ _ _ Hwalk) as (_ & Hall & Hstop).
  rewrite Z.sub_0_r in Hall, Hstop.
  eexists. split.
  { unfold st'. rewrite Hhs. apply list_lookup_insert_eq. by eapply lookup_lt_Some. }
  simpl. done.
Qed.

Lemma marking_counts_today_witness :
  let now := Scenario.at_noon Scenario.saturday in
  let st' := toggleHabitCompletion now Scenario.hid Scenario.after_week in
  ∃ h', habits st' !! 0%nat = Some h'
        ∧ totalCompletions h' = 5 + 1
        ∧ 1 ≤ streak h'
        ∧ bestStreak h' = Z.max 5 (streak h')
        ∧ (∀ k, 0 ≤ k < streak h' → is_completed (completions st') (today now - k) Scenario.hid = true)
        ∧ is_completed (completions st') (today now - streak h') Scenario.hid = false.
Proof.
  intros now.
  refine (marking_counts_today now Scenario.hid Scenario.after_week 0%nat
            (Habit Scenario.hid "Stretch" "" "fitness" "fa-running" "#43e97b" 1 "custom"
                   [1; 2; 3; 4; 5] None 4 5 5 5) _ _).
  - vm_compute. reflexivity.
  - vm_compute. reflexivity.
Defined.

(** X4: unmarking a habit that is done today removes the entry and leaves
    [streak] and [bestStreak] as they were: the stored streak still counts
    today, while the walk run on the ledger after the call gives 0. *)
Theorem unmarking_leaves_streak_stale (now : clock) (habitId : string) (st : app)
    (i : nat) (h : habit) :
  find_habit habitId (habits st) = Some (i, h) →
  is_completed (completions st) (today now) habitId = true →
  let st' := toggleHabitCompletion now habitId st in
  ∃ h', habits st' !! i = Some h'
        ∧ streak h' = streak h ∧ bestStreak h' = bestStreak h
        ∧ totalCompletions h' = Z.max 0 (totalCompletions h - 1)
        ∧ ledger_entry (completions st') (today now) habitId = None
        ∧ (streak <$> habits (updateStreak now habitId st') !! i) = Some 0.
Proof.
  intros Hf Hc st'. pose proof (toggle_found_exact now habitId st i h Hf) as Hex.
  cbv zeta in Hex. rewrite Hc in Hex. destruct Hex as [Hhs Hnot].
  destruct (find_habit_Some _ _ _ _ Hf) as [Hi _].
  pose proof (lookup_lt_Some _ _ _ Hi) as Hlt.
  eexists. split; [unfold st'; rewrite Hhs; by apply list_lookup_insert_eq|].
  simpl. split; [done|]. split; [done|]. split; [done|]. split.
  { fold st' in Hnot. rewrite is_completed_entry in Hnot.
    apply bool_decide_eq_false in Hnot. by destruct (ledger_entry _ _ _); [destruct Hnot|]. }
  pose proof (updateStreak_cases now habitId st') as Hup.
  assert (find_habit habitId (habits st')
          = Some (i, set_totalCompletions (Z.max 0 (totalCompletions h - 1)) h)) as Hf'.
  { unfold st'. rewrite Hhs. by apply find_habit_insert with h. }
  rewrite Hf' in Hup. destruct Hup as (s & Hwalk & _ & ->).
  simpl in Hwalk. fold st' in Hnot. rewrite Hnot in Hwalk. injection Hwalk as <-.
  unfold set_habits. cbn [habits]. rewrite list_lookup_insert_eq; [done|].
  unfold st'. rewrite Hhs, length_insert. done.
Qed.

Lemma unmarking_leaves_streak_stale_witness :
  let now := Scenario.at_noon Scenario.friday in
  let st' := toggleHabitCompletion now Scenario.hid Scenario.after_week in
  ∃ h', habits st' !! 0%nat = Some h'
        ∧ streak h' = 5 ∧ bestStreak h' = 5
        ∧ totalCompletions h' = Z.max 0 (5 - 1)
        ∧ ledger_entry (completions st') (today now) Scenario.hid = None
        ∧ (streak <$> habits (updateStreak now Scenario.hid st') !! 0%nat) = Some 0.
Proof.
  intros now.
  refine (unmarking_leaves_streak_stale now Scenario.hid Scenario.after_week 0%nat
            (Habit Scenario.hid "Stretch" "" "fitness" "fa-running" "#43e97b" 1 "custom"
                   [1; 2; 3; 4; 5] None 4 5 5 5) _ _).
  - vm_compute. reflexivity.
  - vm_compute. reflexivity.
Defined.

(** ** Runs of calls *)

Lemma toggle_all_app (calls1 calls2 : list (clock * string)) (st : app) :
  toggle_all (calls1 ++ calls2) st = toggle_all calls2 (toggle_all calls1 st).
Proof.
  revert st. induction calls1 as [|[now habitId] calls1 IH]; intros st; simpl; [done|].
  apply IH.
Qed.

Lemma toggle_keeps_best (now : clock) (habitId : string) (st : app) (j : nat) (h : habit) :
  habits st !! j = Some h →
  ∃ h', habits (toggleHabitCompletion now habitId st) !! j = Some h'
        ∧ id h' = id h ∧ bestStreak h ≤ bestStreak h'.
Proof.
  intros Hj. destruct (find_habit habitId (habits st)) as [[i hf]|] eqn:Hf.
  - destruct (find_habit_Some _ _ _ _ Hf) as [Hi _].
    pose proof (lookup_lt_Some _ _ _ Hi) as Hlt.
    pose proof (toggle_found_exact now habitId st i hf Hf) as Hex. cbv zeta in Hex.
    destruct (decide (i = j)) as [->|Hne].
    + assert (hf = h) as -> by congruence.
      destruct (is_completed (completions st) (today now) habitId).
      * destruct Hex as [-> _]. eexists. split; [by apply list_lookup_insert_eq|]. done.
      * destruct Hex as (s & -> & _). eexists. split; [by apply list_lookup_insert_eq|].
        simpl. split; [done|]. lia.
    + exists h. split; [|done].
      destruct (is_completed (completions st) (today now) habitId).
      * destruct Hex as [-> _]. by rewrite list_lookup_insert_ne.
      * destruct Hex as (s & -> & _). by rewrite list_lookup_insert_ne.
  - rewrite toggle_not_found by done. by exists h.
Qed.

(** X5: whatever calls of [toggleHabitCompletion] are made, on whatever
    habits and days, the best streak of a habit never goes down (and the
    habit keeps its place and its id). *)
Theorem bestStreak_never_decreases (calls : list (clock * string)) (st : app)
    (j : nat) (h : habit) :
  habits st !! j = Some h →
  ∃ h', habits (toggle_all calls st) !! j = Some h'
        ∧ id h' = id h ∧ bestStreak h ≤ bestStreak h'.
Proof.
  revert st h. induction calls as [|[now habitId] calls IH]; intros st h Hj; simpl.
  - by exists h.
  - destruct (toggle_keeps_best now habitId st j h Hj) as (h1 & Hj1 & Hid1 & Hb1).
    destruct (IH _ _ Hj1) as (h2 & Hj2 & Hid2 & Hb2).
    exists h2. split; [done|]. split; [congruence|lia].
Qed.

Lemma bestStreak_never_decreases_witness :
  ∃ h', habits (toggle_all [(Scenario.at_noon 9, Scenario.hid); (Scenario.at_noon 9, Scenario.hid);
                            (Scenario.at_noon 11, Scenario.hid)] Scenario.after_week) !! 0%nat
        = Some h'
        ∧ id h' = Scenario.hid ∧ 5 ≤ bestStreak h'.
Proof.
  refine (bestStreak_never_decreases _ Scenario.after_week 0%nat
            (Habit Scenario.hid "Stretch" "" "fitness" "fa-running" "#43e97b" 1 "custom"
                   [1; 2; 3; 4; 5] None 4 5 5 5) _).
  vm_compute. reflexivity.
Defined.

Lemma toggle_other_day (now : clock) (habitId : string) (st : app) (d : Z) :
  d ≠ today now →
  is_completed (completions (toggleHabitCompletion now habitId st)) d habitId
  = is_completed (completions st) d habitId.
Proof.
  intros Hne. rewrite !is_completed_entry.
  rewrite toggle_ledger_frame; [done|]. congruence.
Qed.

(** The count of the walk is fixed by the ledger: [s] completed days in a
    row and then a gap leave no other result. *)
Lemma streak_walk_exact fuel (cs : gmap Z (gmap string event)) (habitId : string) (d s s' : Z) :
  0 ≤ s →
  (∀ k, 0 ≤ k < s → is_completed cs (d - k) habitId = true) →
  is_completed cs (d - s) habitId = false →
  streak_walk fuel cs habitId d 0 = Some s' → s' = s.
Proof.
  intros Hs Hall Hstop Hw.
  destruct (streak_walk_counts habitId fuel cs d 0 s' Hw) as (Hle & Hall' & Hstop').
  rewrite Z.sub_0_r in Hall', Hstop'.
  destruct (Z.lt_total s' s) as [Hlt|[->|Hgt]]; [|done|].
  - rewrite Hall in Hstop' by lia. discriminate.
  - rewrite Hall' in Hstop by lia. discriminate.
Qed.

Lemma consecutive_marks_invariant (habitId : string) (i : nat) (d0 : Z) (st : app) (h : habit)
    (nows : list clock) :
  find_habit habitId (habits st) = Some (i, h) →
  (∀ k now, nows !! k = Some now → today now = d0 + Z.of_nat k) →
  (∀ d, d0 - 1 ≤ d < d0 + Z.of_nat (length nows) →
        is_completed (completions st) d habitId = false) →
  let st' := toggle_all ((λ now, (now, habitId)) <$> nows) st in
  let n := Z.of_nat (length nows) in
  ∃ h', find_habit habitId (habits st') = Some (i, h')
        ∧ totalCompletions h' = totalCompletions h + n
        ∧ (nows = [] → h' = h)
        ∧ (nows ≠ [] → streak h' = n ∧ bestStreak h' = Z.max (bestStreak h) n)
        ∧ ∀ d, is_completed (completions st') d habitId
               = if bool_decide (d0 ≤ d < d0 + n) then true
                 else is_completed (completions st) d habitId.
Proof.
  intros Hf. induction nows as [|now nows IH] using rev_ind; intros Hdays Hfree; simpl.
  - exists h. split; [done|]. split; [lia|]. split; [done|]. split; [done|].
    intros d. by rewrite bool_decide_eq_false_2 by lia.
  - rewrite fmap_app, toggle_all_app. simpl.
    rewrite length_app in *. simpl in *.
    set (m := Z.of_nat (length nows)).
    destruct IH as (hm & Hfm & Htot & Hnil & Hrun & Hled).
    { intros k c Hk. apply Hdays. by apply lookup_app_l_Some. }
    { intros d Hd. apply Hfree. lia. }
    fold m in Htot, Hrun, Hled.
    set (stm := toggle_all ((λ c, (c, habitId)) <$> nows) st) in *.
    assert (today now = d0 + m) as Htoday.
    { apply (Hdays (length nows)). by apply list_lookup_middle. }
    assert (is_completed (completions stm) (today now) habitId = false) as Hnot.
    { rewrite Hled, bool_decide_eq_false_2 by lia. apply Hfree. lia. }
    pose proof (toggle_found_exact now habitId stm i hm Hfm) as Hex. cbv zeta in Hex.
    rewrite Hnot in Hex. destruct Hex as (s & Hhs & Hwalk & _ & Hdone).
    set (st1 := toggleHabitCompletion now habitId stm) in *.
    assert (∀ d, is_completed (completions st1) d habitId
                 = if bool_decide (d0 ≤ d < d0 + (m + 1)) then true
                   else is_completed (completions st) d habitId) as Hled1.
    { intros d. destruct (decide (d = today now)) as [->|Hne].
      - rewrite Hdone. by rewrite bool_decide_eq_true_2 by lia.
      - unfold st1. rewrite toggle_other_day, Hled by done.
        destruct (decide (d0 ≤ d < d0 + m)).
        + by rewrite !bool_decide_eq_true_2 by lia.
        + by rewrite !bool_decide_eq_false_2 by lia. }
    assert (s = m + 1) as ->.
    { eapply streak_walk_exact; [| | |exact Hwalk]; [lia| |].
      - intros k Hk. rewrite Hled1. by rewrite bool_decide_eq_true_2 by lia.
      - rewrite Hled1, bool_decide_eq_false_2 by lia. apply Hfree. lia. }
    eexists. split; [rewrite Hhs; by apply find_habit_insert with hm|].
    simpl. replace (Z.of_nat (length nows + 1)) with (m + 1) by lia.
    split; [lia|]. split; [by intros ?%app_nil_r_inv|]. split; [|done].
    intros _. split; [done|].
    destruct nows as [|c nows'].
    + rewrite (Hnil eq_refl). simpl in m. lia.
    + destruct Hrun as [_ ->]; [done|]. lia.
Qed.

(** X6: a habit marked done on [n] days in a row, once a day (the day
    before the first and those [n] days being free of entries for it
    beforehand), has streak [n] after the last call, [n] more
    completions in total, and a best streak that is the larger of its old
    value and [n]; whether the habit was due on those days plays no part. *)
Theorem marks_in_a_row_give_streak (habitId : string) (i : nat) (d0 : Z) (st : app) (h : habit)
    (nows : list clock) :
  find_habit habitId (habits st) = Some (i, h) →
  nows ≠ [] →
  (∀ k now, nows !! k = Some now → today now = d0 + Z.of_nat k) →
  (∀ d, d0 - 1 ≤ d < d0 + Z.of_nat (length nows) →
        is_completed (completions st) d habitId = false) →
  ∃ h', habits (toggle_all ((λ now, (now, habitId)) <$> nows) st) !! i = Some h'
        ∧ streak h' = Z.of_nat (length nows)
        ∧ totalCompletions h' = totalCompletions h + Z.of_nat (length nows)
        ∧ bestStreak h' = Z.max (bestStreak h) (Z.of_nat (length nows)).
Proof.
  intros Hf Hne Hdays Hfree.
  destruct (consecutive_marks_invariant habitId i d0 st h nows Hf Hdays Hfree)
    as (h' & Hf' & Htot & _ & Hrun & _).
  destruct (Hrun Hne) as [Hs Hb]. destruct (find_habit_Some _ _ _ _ Hf') as [Hi _].
  by exists h'.
Qed.

Lemma marks_in_a_row_give_streak_witness :
  ∃ h', habits (toggle_all ((λ now, (now, Scenario.hid))
                              <$> [Scenario.at_noon 4; Scenario.at_noon 5; Scenario.at_noon 6])
                           Scenario.created) !! 0%nat = Some h'
        ∧ streak h' = 3
        ∧ totalCompletions h' = 0 + 3
        ∧ bestStreak h' = Z.max 0 3.
Proof.
  refine (marks_in_a_row_give_streak Scenario.hid 0%nat 4 Scenario.created
            (new_habit (Scenario.at_noon Scenario.monday) Scenario.weekdays_data)
            [Scenario.at_noon 4; Scenario.at_noon 5; Scenario.at_noon 6] _ _ _ _).
  - vm_compute. reflexivity.
  - discriminate.
  - intros [|[|[|k]]] now Hk; vm_compute in Hk; try discriminate;
      injection Hk as <-; reflexivity.
  - intros d _. reflexivity.
Defined.

(** ** Editing *)

Lemma updated_habit_progress (hd : habitData) (h : habit) :
  habit_progress (updated_habit hd h) = habit_progress h.
Proof. done. Qed.

(** X7: [updateHabit], for any id and any form data, leaves the ledger as
    it is and keeps, for every habit in its place, the id, the creation
    day and the three counters; with an id that no habit has the state is
    the same. *)
Theorem updateHabit_keeps_progress (habitId : string) (hd : habitData) (st : app) :
  let st' := updateHabit habitId hd st in
  completions st' = completions st
  ∧ habit_progress <$> habits st' = habit_progress <$> habits st
  ∧ match find_habit habitId (habits st) with
    | Some (i, h) => ∀ j, j ≠ i → habits st' !! j = habits st !! j
    | None => st' = st
    end.
Proof.
  unfold updateHabit. destruct (find_habit habitId (habits st)) as [[i h]|] eqn:Hf; [|done].
  destruct (find_habit_Some _ _ _ _ Hf) as [Hi _]. simpl.
  split; [done|]. split; [by apply fmap_insert_same with h|].
  intros j Hne. by rewrite list_lookup_insert_ne.
Qed.

Lemma isHabitActiveToday_one_day (later : clock) (h : habit) (wd : Z) :
  frequency h = "weekly" → selectedDays h = [wd] →
  isHabitActiveToday later h = bool_decide (weekday (today later) = wd).
Proof.
  intros Hfreq Hdays. unfold isHabitActiveToday. rewrite Hfreq, Hdays. simpl.
  apply bool_decide_ext. rewrite list_elem_of_singleton. done.
Qed.

(** X8: the form submitted with the weekly button active while a habit of
    the collection is being edited: the habit keeps its id, creation day
    and counters, and from then on it is due exactly on the days that
    fall on the weekday of the edit, whatever its days were before. *)
Theorem editing_weekly_moves_the_day (now : clock) (habitId : string) (f : form) (st : app)
    (i : nat) (h : habit) :
  find_habit habitId (habits st) = Some (i, h) →
  habitId ≠ EmptyString →
  f_activeFreq f = Some "weekly" →
  ∃ h', habits (handleHabitSubmit now (Some habitId) f st) !! i = Some h'
        ∧ habit_progress h' = habit_progress h
        ∧ ∀ later, isHabitActiveToday later h'
                   = bool_decide (weekday (today later) = weekday (today now)).
Proof.
  intros Hf Hne Hfreq. unfold handleHabitSubmit.
  destruct (String.eqb_spec habitId ""); [done|].
  unfold updateHabit. rewrite Hf. simpl.
  destruct (find_habit_Some _ _ _ _ Hf) as [Hi _].
  eexists. split; [apply list_lookup_insert_eq; by eapply lookup_lt_Some|].
  split; [done|]. intros later. apply isHabitActiveToday_one_day.
  - simpl. unfold form_frequency. by rewrite Hfreq.
  - simpl. unfold form_selectedDays, form_frequency. by rewrite Hfreq.
Qed.

Lemma editing_weekly_moves_the_day_witness :
  let f := Form (Some "weekly") [] " Stretch " "" "fitness" "fa-running" "#43e97b" "2" "" in
  ∃ h', habits (handleHabitSubmit (Scenario.at_noon Scenario.saturday) (Some Scenario.hid) f
                  Scenario.after_week) !! 0%nat = Some h'
        ∧ habit_progress h' = (Scenario.hid, 4, 5, 5, 5)
        ∧ ∀ later, isHabitActiveToday later h'
                   = bool_decide (weekday (today later) = weekday Scenario.saturday).
Proof.
  intros f.
  refine (editing_weekly_moves_the_day (Scenario.at_noon Scenario.saturday) Scenario.hid f
            Scenario.after_week 0%nat
            (Habit Scenario.hid "Stretch" "" "fitness" "fa-running" "#43e97b" 1 "custom"
                   [1; 2; 3; 4; 5] None 4 5 5 5) _ _ _).
  - vm_compute. reflexivity.
  - vm_compute. discriminate.
  - reflexivity.
Defined.

(** ** Deleting and adding *)

Lemma filter_all {A} (P : A → Prop) `{!∀ x, Decision (P x)} (l : list A) :
  Forall P l → filter P l = l.
Proof.
  induction 1 as [|x l Hx _ IH]; [done|]. by rewrite filter_cons_True, IH.
Qed.

Lemma purge_absent (habitId : string) (cs : gmap Z (gmap string event)) :
  (∀ d, ledger_entry cs d habitId = None) → delete habitId <$> cs = cs.
Proof.
  intros Hnone. apply map_eq. intros d. rewrite lookup_fmap.
  specialize (Hnone d). unfold ledger_entry in Hnone.
  destruct (cs !! d) as [day|]; simpl in *; [|done]. by rewrite delete_id.
Qed.

Lemma deleteHabit_unknown (habitId : string) (st : app) :
  find_habit habitId (habits st) = None →
  (∀ d, ledger_entry (completions st) d habitId = None) →
  deleteHabit true habitId st = st.
Proof.
  intros Hf Hnone. unfold deleteHabit. destruct st as [hs cs n s e]. simpl in *. f_equal.
  - apply filter_all. unfold find_habit in Hf. by apply list_find_None in Hf.
  - by apply purge_absent.
Qed.

Lemma deleteHabit_find (habitId : string) (st : app) :
  find_habit habitId (habits (deleteHabit true habitId st)) = None.
Proof.
  unfold find_habit. apply list_find_None, Forall_forall. simpl.
  intros h Hin. by apply list_elem_of_filter in Hin as [Hne _].
Qed.

Lemma deleteHabit_entries (habitId : string) (st : app) (d : Z) :
  ledger_entry (completions (deleteHabit true habitId st)) d habitId = None.
Proof.
  simpl. unfold ledger_entry. rewrite lookup_fmap.
  destruct (completions st !! d) as [day|]; simpl; [|done]. apply lookup_delete_eq.
Qed.

(** X9: after a confirmed deletion the id is gone for good: deleting it
    again changes nothing, and a toggle of the id leaves the habits and
    every entry of the ledger as they are. *)
Theorem deleted_id_is_inert (now : clock) (habitId : string) (st : app) :
  let st' := deleteHabit true habitId st in
  deleteHabit true habitId st' = st'
  ∧ habits (toggleHabitCompletion now habitId st') = habits st'
  ∧ ∀ d hid, ledger_entry (completions (toggleHabitCompletion now habitId st')) d hid
             = ledger_entry (completions st') d hid.
Proof.
  intros st'. split; [|split].
  - apply deleteHabit_unknown; [apply deleteHabit_find|apply deleteHabit_entries].
  - rewrite toggle_not_found by apply deleteHabit_find. done.
  - intros d hid. destruct (decide ((d, hid) = (today now, habitId))) as [[= -> ->]|Hne].
    + rewrite toggle_not_found by apply deleteHabit_find. unfold st'.
      rewrite deleteHabit_entries. cbn [completions set_completions].
      unfold ledger_entry.
      destruct (completions (deleteHabit true habitId st) !! today now) as [day|] eqn:Ht.
      * pose proof (deleteHabit_entries habitId st (today now)) as Hnone.
        unfold ledger_entry in Hnone. by rewrite Ht in *.
      * by rewrite lookup_insert_eq.
    + by apply toggle_ledger_frame.
Qed.

(** X10: adding a habit and deleting it again gives back the state there
    was, provided no habit had the new id and the ledger held no entry
    under it. *)
Theorem add_then_delete_restores (now : clock) (hd : habitData) (st : app) :
  find_habit (id (new_habit now hd)) (habits st) = None →
  (∀ d, ledger_entry (completions st) d (id (new_habit now hd)) = None) →
  deleteHabit true (id (new_habit now hd)) (addHabit now hd st) = st.
Proof.
  intros Hf Hnone. destruct st as [hs cs n s e]. unfold deleteHabit, addHabit. simpl in *.
  f_equal.
  - rewrite filter_app, filter_all, filter_cons_False, filter_nil, app_nil_r; try done.
    + by intros Hne.
    + unfold find_habit in Hf. by apply list_find_None in Hf.
  - by apply purge_absent.
Qed.

Lemma add_then_delete_restores_witness :
  deleteHabit true (id (new_habit (Scenario.at_noon 12) Scenario.weekdays_data))
    (addHabit (Scenario.at_noon 12) Scenario.weekdays_data Scenario.restored)
  = Scenario.restored.
Proof.
  apply (add_then_delete_restores (Scenario.at_noon 12) Scenario.weekdays_data Scenario.restored).
  - vm_compute. reflexivity.
  - intros d. unfold ledger_entry. simpl.
    destruct (decide (d = Scenario.saturday)) as [->|Hne].
    + vm_compute. reflexivity.
    + by rewrite lookup_singleton_ne.
Defined.

(** X11: habits created at different readings of [Date.now()] get
    different ids.  Looking up the id of a habit just added finds that
    habit, at the end of the collection, when no habit had the id before;
    when one had, it is still that older habit which is found. *)
Theorem new_habit_id_lookup (now now' : clock) (hd hd' : habitData) (st : app) :
  (date_now now ≠ date_now now' → id (new_habit now hd) ≠ id (new_habit now' hd'))
  ∧ find_habit (id (new_habit now hd)) (habits (addHabit now hd st))
    = match find_habit (id (new_habit now hd)) (habits st) with
      | Some found => Some found
      | None => Some (length (habits st), new_habit now hd)
      end.
Proof.
  split.
  - simpl. intros Hne Heq. apply Hne. by apply (inj pretty).
  - unfold find_habit. simpl.
    destruct (list_find _ (habits st)) as [[i h]|] eqn:Hf.
    + by apply list_find_app_l.
    + rewrite list_find_app_r by done. simpl. by rewrite decide_True by done.
Qed.

Lemma new_habit_id_lookup_witness :
  id (new_habit (Scenario.at_noon 4) Scenario.weekdays_data)
  ≠ id (new_habit (Scenario.at_noon 5) Scenario.weekdays_data).
Proof.
  apply (new_habit_id_lookup (Scenario.at_noon 4) (Scenario.at_noon 5)
           Scenario.weekdays_data Scenario.weekdays_data Scenario.fresh).
  vm_compute. discriminate.
Defined.

From Stdlib Require Lqa.
From stdpp Require sorting.

(** ** Counting over a window of days *)

Lemma count_fold {A} (p : A → bool) (l : list A) (acc : Z) :
  fold_left (λ count i, if p i then count + 1 else count) l acc
  = acc + Z.of_nat (length (filter (λ i, p i = true) l)).
Proof.
  revert acc. induction l as [|x l IH]; intros acc; simpl; [lia|].
  rewrite IH, filter_cons. destruct (p x) eqn:Hp.
  - rewrite decide_True by done. simpl. lia.
  - rewrite decide_False by (by intros ?). lia.
Qed.

Lemma getLastNDaysCompletions_count (now : clock) (habitId : string) (days : Z) (st : app) :
  getLastNDaysCompletions now habitId days st
  = Z.of_nat (length (filter (λ i, is_completed (completions st) (today now - i) habitId = true)
                             (seqZ 0 days))).
Proof. unfold getLastNDaysCompletions. by rewrite count_fold. Qed.

Lemma window_count_range (now : clock) (habitId : string) (days : Z) (st : app) :
  0 ≤ getLastNDaysCompletions now habitId days st ≤ Z.max 0 days.
Proof.
  rewrite getLastNDaysCompletions_count.
  pose proof (length_filter (λ i, is_completed (completions st) (today now - i) habitId = true)
                (seqZ 0 days)) as Hle.
  rewrite length_seqZ in Hle. lia.
Qed.

Lemma window_count_mono (now : clock) (habitId : string) (days days' : Z) (st : app) :
  days ≤ days' →
  getLastNDaysCompletions now habitId days st ≤ getLastNDaysCompletions now habitId days' st.
Proof.
  intros Hle. rewrite !getLastNDaysCompletions_count.
  destruct (decide (days ≤ 0)) as [Hneg|Hpos].
  - rewrite (seqZ_nil 0 days) by done. simpl. lia.
  - replace days' with (days + (days' - days)) by lia.
    rewrite seqZ_app by lia. rewrite filter_app, length_app. lia.
Qed.

(** X12: the number of completed days among the last [days] is at least
    0 and at most [days] (0 for a window that is not positive), it does
    not go down when the window grows, and over 30 days it is the number
    [getLast30DaysCompletions] gives. *)
Theorem window_count_bounds (now : clock) (habitId : string) (days days' : Z) (st : app) :
  0 ≤ getLastNDaysCompletions now habitId days st ≤ Z.max 0 days
  ∧ (days ≤ days' →
       getLastNDaysCompletions now habitId days st ≤ getLastNDaysCompletions now habitId days' st)
  ∧ getLast30DaysCompletions now habitId st = getLastNDaysCompletions now habitId 30 st.
Proof.
  split; [apply window_count_range|]. split; [apply window_count_mono|].
  unfold getLast30DaysCompletions, getLastNDaysCompletions. reflexivity.
Qed.

Lemma window_count_bounds_witness :
  getLastNDaysCompletions (Scenario.at_noon 9) Scenario.hid 7 Scenario.after_week
  ≤ getLastNDaysCompletions (Scenario.at_noon 9) Scenario.hid 14 Scenario.after_week.
Proof.
  apply (window_count_bounds (Scenario.at_noon 9) Scenario.hid 7 14 Scenario.after_week).
  lia.
Defined.

Lemma possible_fold (now : clock) (h : habit) (l : list Z) (acc : Z) :
  fold_left
    (λ count i,
       if String.eqb (frequency h) "daily" then count + 1
       else if bool_decide (weekday (today now - i) ∈ selectedDays h) then count + 1
       else count) l acc
  = fold_left
      (λ count i,
         if isHabitActiveToday (Clock (date_now now) (today now - i) (time_of_day now)) h
         then count + 1 else count) l acc.
Proof.
  revert acc. induction l as [|i l IH]; intros acc; [done|].
  cbn [fold_left]. rewrite <- IH. f_equal. clear IH. unfold isHabitActiveToday. cbn [today].
  destruct (String.eqb (frequency h) "daily"); [done|]. by destruct (bool_decide _).
Qed.

(** X13: the number of possible days of a habit over the last 30 days is
    the number of those days on which [isHabitActiveToday] would hold,
    so it lies between 0 and 30, and it is 30 for a daily habit. *)
Theorem possible_days_are_due_days (now : clock) (h : habit) :
  getLast30DaysPossible now h
  = Z.of_nat (length (filter
      (λ i, isHabitActiveToday (Clock (date_now now) (today now - i) (time_of_day now)) h = true)
      (seqZ 0 30)))
  ∧ 0 ≤ getLast30DaysPossible now h ≤ 30
  ∧ (frequency h = "daily" → getLast30DaysPossible now h = 30).
Proof.
  assert (getLast30DaysPossible now h
          = Z.of_nat (length (filter
              (λ i, isHabitActiveToday (Clock (date_now now) (today now - i) (time_of_day now)) h
                    = true) (seqZ 0 30)))) as Heq.
  { unfold getLast30DaysPossible.
    rewrite <- (Z.add_0_l (Z.of_nat _)), <- count_fold. apply possible_fold. }
  split; [done|]. split.
  - rewrite Heq.
    pose proof (length_filter
      (λ i, isHabitActiveToday (Clock (date_now now) (today now - i) (time_of_day now)) h = true)
      (seqZ 0 30)) as Hle.
    rewrite length_seqZ in Hle. lia.
  - intros Hd. rewrite Heq, filter_all; [done|].
    apply Forall_forall. intros i _. unfold isHabitActiveToday. by rewrite Hd.
Qed.

Lemma possible_days_are_due_days_witness :
  getLast30DaysPossible (Scenario.at_noon 9)
    (Habit "h1" "Read" "" "learning" "fa-book" "#667eea" 1 "daily" all_days None 4 0 0 0) = 30.
Proof.
  apply (possible_days_are_due_days (Scenario.at_noon 9)
           (Habit "h1" "Read" "" "learning" "fa-book" "#667eea" 1 "daily" all_days None 4 0 0 0)).
  reflexivity.
Defined.

(** ** Percentages *)

Lemma percent_bounds (a b : Z) :
  0 ≤ a ≤ b → 0 < b → (0 <= inject_Z a / inject_Z b * 100 <= 100)%Q.
Proof.
  intros Ha Hb. destruct b as [|b|b]; try lia.
  unfold Qle, Qdiv, Qmult, Qinv, inject_Z. simpl.
  rewrite ?Pos.mul_1_l, ?Pos.mul_1_r. lia.
Qed.

Lemma Math_round_percent (q : Q) : (0 <= q <= 100)%Q → 0 ≤ Math_round q ≤ 100.
Proof.
  intros [Hlo Hhi]. unfold Math_round.
  assert (Qfloor 0 ≤ Qfloor (q + (1 # 2))) as H1 by (apply Qfloor_resp_le; Lqa.lra).
  assert (Qfloor (q + (1 # 2)) ≤ Qfloor (100 + (1 # 2))) as H2 by (apply Qfloor_resp_le; Lqa.lra).
  change (Qfloor 0) with 0 in H1. change (Qfloor (100 + (1 # 2))) with 100 in H2. lia.
Qed.

(** X14: the completion rate of the dashboard is a whole number between
    0 and 100: the habits done today are counted among those due today. *)
Theorem completionRate_is_percentage (now : clock) (st : app) :
  0 ≤ completionRate now st ≤ 100
  ∧ (length (completedToday now st) ≤ length (todaysHabits now st))%nat.
Proof.
  assert (length (completedToday now st) ≤ length (todaysHabits now st))%nat as Hle
    by apply length_filter.
  split; [|done]. unfold completionRate.
  destruct (Z.ltb_spec 0 (Z.of_nat (length (todaysHabits now st)))); [|lia].
  apply Math_round_percent, percent_bounds; lia.
Qed.

Lemma fold_sum_nonneg {A} (f : A → Z) (l : list A) (acc : Z) :
  (∀ x, 0 ≤ f x) → 0 ≤ acc → 0 ≤ fold_left (λ sum x, sum + f x) l acc.
Proof.
  intros Hf. revert acc. induction l as [|x l IH]; intros acc Hacc; simpl; [done|].
  apply IH. specialize (Hf x). lia.
Qed.

Lemma getLast30DaysCompletions_nonneg (now : clock) (habitId : string) (st : app) :
  0 ≤ getLast30DaysCompletions now habitId st.
Proof. unfold getLast30DaysCompletions. rewrite count_fold. lia. Qed.

(** X15: the target achievement plotted for a category lies between 0
    and 100 per cent, whatever the targets of its habits are (a total
    target that is not positive gives 0). *)
Theorem targetAchievement_is_percentage (now : clock) (hs : list habit) (st : app) :
  (0 <= targetAchievement now hs st <= 100)%Q.
Proof.
  unfold targetAchievement. split; [|apply Q.le_min_r].
  apply Q.min_glb; [|done].
  destruct (Z.ltb_spec 0 (targetCompletions now hs)) as [Hpos|]; [|done].
  assert (0 ≤ actualCompletions now hs st) as Hact.
  { unfold actualCompletions.
    apply (fold_sum_nonneg (λ h, getLast30DaysCompletions now (id h) st)); [|done].
    intros h. apply getLast30DaysCompletions_nonneg. }
  destruct (targetCompletions now hs) as [|w|w]; try lia.
  unfold Qle, Qdiv, Qmult, Qinv, inject_Z. simpl.
  rewrite ?Pos.mul_1_l, ?Pos.mul_1_r. lia.
Qed.

(** X16: for a habit whose counters are in range (bestStreak ≥ streak ≥ 0)
    the streak quality is between 0 and 100 per cent, and it is 100
    exactly when the current streak is the best one and is not 0. *)
Theorem streakQuality_is_percentage (h : habit) :
  counters_ok h →
  (0 <= streakQuality h <= 100)%Q
  ∧ ((streakQuality h == 100)%Q ↔ streak h = bestStreak h ∧ 0 < streak h).
Proof.
  intros [[Hs Hb] _]. unfold streakQuality.
  destruct (Z.ltb_spec 0 (bestStreak h)) as [Hpos|Hzero].
  - split; [by apply percent_bounds|].
    destruct (bestStreak h) as [|b|b] eqn:Hbest; try lia.
    unfold Qeq, Qdiv, Qmult, Qinv, inject_Z. simpl.
    rewrite ?Pos.mul_1_l, ?Pos.mul_1_r. lia.
  - split; [done|]. split; [intros Heq; discriminate|lia].
Qed.

Lemma streakQuality_is_percentage_witness :
  (0 <= streakQuality (Habit "h1" "Read" "" "learning" "fa-book" "#667eea" 1 "daily" all_days
                             None 4 3 7 12) <= 100)%Q.
Proof.
  apply (streakQuality_is_percentage
           (Habit "h1" "Read" "" "learning" "fa-book" "#667eea" 1 "daily" all_days None 4 3 7 12)).
  unfold counters_ok. simpl. lia.
Defined.

(** X17: the momentum of a habit (the last 7 days against the 7 before)
    lies between 0 and 700, so the floor at 0 applied to the average of a
    category never lowers anything; with completions in the earlier week
    it is at least 100 exactly when the last week has no fewer. *)
Theorem habitMomentum_range (now : clock) (h : habit) (st : app) :
  let last7 := getLastNDaysCompletions now (id h) 7 st in
  let prev7 := getLastNDaysCompletions now (id h) 14 st - last7 in
  (0 <= habitMomentum now h st <= 700)%Q
  ∧ 0 ≤ prev7
  ∧ (0 < prev7 → ((100 <= habitMomentum now h st)%Q ↔ prev7 ≤ last7)).
Proof.
  intros last7 prev7.
  pose proof (window_count_range now (id h) 7 st) as H7.
  pose proof (window_count_mono now (id h) 7 14 st ltac:(lia)) as Hmono.
  fold last7 in H7, Hmono.
  assert (0 ≤ prev7) as Hprev by (unfold prev7; lia).
  unfold habitMomentum. fold last7. fold prev7.
  destruct (Z.ltb_spec 0 prev7) as [Hpos|Hzero].
  - destruct prev7 as [|p|p] eqn:Hp; try lia.
    unfold Qle, Qplus, Qdiv, Qmult, Qinv, inject_Z. simpl.
    rewrite ?Pos.mul_1_l, ?Pos.mul_1_r. split; [lia|]. split; [lia|]. intros _. lia.
  - split; [|split; [done|lia]].
    unfold Qle, inject_Z. simpl. lia.
Qed.

Lemma habitMomentum_range_witness :
  let now := Scenario.at_noon 16 in
  let st := toggle_all ((λ d, (Scenario.at_noon d, Scenario.hid)) <$> seqZ 12 5)
                       Scenario.after_week in
  let h := Habit Scenario.hid "Stretch" "" "fitness" "fa-running" "#43e97b" 1 "custom"
                 [1; 2; 3; 4; 5] None 4 5 5 5 in
  (100 <= habitMomentum now h st)%Q.
Proof.
  intros now st h.
  destruct (habitMomentum_range now h st) as (_ & _ & Hiff).
  apply Hiff; vm_compute; first [reflexivity|discriminate].
Defined.

(** ** The range of the analytics view *)

(** X18: with no custom range the days of the analytics are the last
    [dateRangeDays] days, today being the latest; with a custom range
    they are the days from its start to its end, both included.  Each
    day occurs once, and there is none when the count is not positive. *)
Theorem getDateRangeData_days (now : clock) (st : app) (d : Z) :
  NoDup (getDateRangeData now st)
  ∧ match customDateStart st, customDateEnd st with
    | Some s, Some e => d ∈ getDateRangeData now st ↔ s ≤ d ≤ e
    | Some s, None => d ∈ getDateRangeData now st ↔ s ≤ d < s + dateRangeDays st
    | None, _ => d ∈ getDateRangeData now st ↔ today now - dateRangeDays st < d ≤ today now
    end.
Proof.
  unfold getDateRangeData. split.
  - apply NoDup_fmap_2; [|apply NoDup_seqZ]. intros x y. lia.
  - assert (∀ start days, d ∈ (λ i, start + i) <$> seqZ 0 days ↔ start ≤ d < start + days)
      as Hmem.
    { intros start days. rewrite list_elem_of_fmap. split.
      - intros (i & -> & Hi). apply elem_of_seqZ in Hi. lia.
      - intros Hd. exists (d - start). split; [lia|]. apply elem_of_seqZ. lia. }
    destruct (customDateStart st) as [s|], (customDateEnd st) as [e|]; simpl;
      rewrite Hmem; lia.
Qed.

(** ** Notifications *)

(** X19: after [addNotification] the new notification is first, unread,
    and the list holds it followed by at most the 49 most recent ones of
    before: never more than 50 in all. *)
Theorem addNotification_keeps_fifty (now : clock) (title message : string)
    (ns : list notification) :
  addNotification now title message ns
  = Notification (pretty (date_now now)) title message (today now, time_of_day now) false
    :: take 49 ns
  ∧ (length (addNotification now title message ns) ≤ 50)%nat.
Proof.
  assert (addNotification now title message ns
          = Notification (pretty (date_now now)) title message (today now, time_of_day now) false
            :: take 49 ns) as Heq.
  { unfold addNotification.
    set (new := Notification _ _ _ _ _).
    destruct (Nat.ltb_spec 50 (length (new :: ns))) as [Hlt|Hge].
    - done.
    - simpl in Hge. by rewrite take_ge by lia. }
  split; [done|]. rewrite Heq. simpl. rewrite length_take. lia.
Qed.

(** ** Points *)

Lemma fold_sum_acc {A} (f : A → Z) (l : list A) (acc : Z) :
  fold_left (λ sum x, sum + f x) l acc = acc + fold_left (λ sum x, sum + f x) l 0.
Proof.
  revert acc. induction l as [|x l IH]; intros acc; simpl; [lia|].
  rewrite (IH (acc + f x)), (IH (0 + f x)). lia.
Qed.

Lemma fold_sum_insert {A} (f : A → Z) (l : list A) (i : nat) (x y : A) :
  l !! i = Some x →
  fold_left (λ sum x, sum + f x) (<[i := y]> l) 0
  = fold_left (λ sum x, sum + f x) l 0 - f x + f y.
Proof.
  revert i. induction l as [|z l IH]; intros [|i] Hi; simpl in *; try done.
  - injection Hi as ->.
    rewrite (fold_sum_acc f l (0 + f y)), (fold_sum_acc f l (0 + f x)). lia.
  - rewrite (fold_sum_acc f _ (0 + f z)), (fold_sum_acc f l (0 + f z)), (IH i Hi). lia.
Qed.

(** X20: marking a habit of the collection that is not done today earns
    exactly 10 points; unmarking one that is done takes 10 away, as long
    as its total is at least 1. *)
Theorem toggle_moves_ten_points (now : clock) (habitId : string) (st : app) (i : nat) (h : habit) :
  find_habit habitId (habits st) = Some (i, h) →
  totalPoints (toggleHabitCompletion now habitId st)
  = totalPoints st
    + (if is_completed (completions st) (today now) habitId
       then 10 * (Z.max 0 (totalCompletions h - 1) - totalCompletions h)
       else 10).
Proof.
  intros Hf. destruct (find_habit_Some _ _ _ _ Hf) as [Hi _].
  pose proof (toggle_found_exact now habitId st i h Hf) as Hex. cbv zeta in Hex.
  unfold totalPoints.
  destruct (is_completed (completions st) (today now) habitId).
  - destruct Hex as [-> _]. rewrite (fold_sum_insert totalCompletions _ i h) by done.
    simpl. lia.
  - destruct Hex as (s & -> & _). rewrite (fold_sum_insert totalCompletions _ i h) by done.
    simpl. lia.
Qed.

Lemma toggle_moves_ten_points_witness :
  totalPoints (toggleHabitCompletion (Scenario.at_noon 9) Scenario.hid Scenario.after_week)
  = totalPoints Scenario.after_week + 10.
Proof.
  refine (toggle_moves_ten_points (Scenario.at_noon 9) Scenario.hid Scenario.after_week 0%nat
            (Habit Scenario.hid "Stretch" "" "fitness" "fa-running" "#43e97b" 1 "custom"
                   [1; 2; 3; 4; 5] None 4 5 5 5) _).
  vm_compute. reflexivity.
Defined.

(** ** The correlation of 0/1 vectors *)

Lemma sum_acc (c : list R) (acc : R) :
  fold_left Rplus c acc = (acc + foldr Rplus 0 c)%R.
Proof.
  revert acc. induction c as [|x c IH]; intros acc; simpl; [ring|]. rewrite IH. ring.
Qed.

Lemma sumSq_acc (c : list R) (acc : R) :
  fold_left (λ a b, a + b * b)%R c acc = (acc + foldr Rplus 0 ((λ b, b * b) <$> c))%R.
Proof.
  revert acc. induction c as [|x c IH]; intros acc; [simpl; ring|].
  rewrite fmap_cons. cbn [fold_left foldr]. rewrite IH. ring.
Qed.

Lemma pSum_acc (c1 c2 : list R) (acc : R) :
  fold_left (λ a bc, a + bc.1 * bc.2)%R (zip c1 c2) acc
  = (acc + foldr Rplus 0 (zip_with Rmult c1 c2))%R.
Proof.
  revert c2 acc. induction c1 as [|x c1 IH]; intros [|y c2] acc; simpl; try ring.
  rewrite IH. ring.
Qed.

Lemma binary_squares (c : list R) :
  Forall (λ x, x = 0 ∨ x = 1)%R c → (λ b, b * b)%R <$> c = c.
Proof.
  induction 1 as [|x c [-> | ->] _ IH]; [done| |]; rewrite fmap_cons, IH; f_equal; Lra.lra.
Qed.

Lemma binary_self_products (c : list R) :
  Forall (λ x, x = 0 ∨ x = 1)%R c → zip_with Rmult c c = c.
Proof.
  induction 1 as [|x c [-> | ->] _ IH]; simpl; [done| |]; rewrite IH; f_equal; Lra.lra.
Qed.

(** The four counts of a pair of 0/1 vectors: both, first only, second
    only, neither; none is negative. *)
Lemma binary_counts (c1 c2 : list R) :
  Forall (λ x, x = 0 ∨ x = 1)%R c1 → Forall (λ x, x = 0 ∨ x = 1)%R c2 →
  length c1 = length c2 →
  (0 <= foldr Rplus 0 (zip_with Rmult c1 c2)
   ∧ foldr Rplus 0 (zip_with Rmult c1 c2) <= foldr Rplus 0 c1
   ∧ foldr Rplus 0 (zip_with Rmult c1 c2) <= foldr Rplus 0 c2
   ∧ foldr Rplus 0 c1 + foldr Rplus 0 c2 - foldr Rplus 0 (zip_with Rmult c1 c2)
     <= INR (length c1))%R.
Proof.
  intros H1. revert c2. induction H1 as [|x c1 Hx _ IH]; intros c2 H2 Hlen.
  - destruct c2; [|done]. simpl. Lra.lra.
  - destruct H2 as [|y c2 Hy H2]; [done|]. injection Hlen as Hlen.
    destruct (IH c2 H2 Hlen) as (Hp & Hp1 & Hp2 & Hn).
    rewrite length_cons, S_INR. simpl.
    destruct Hx as [-> | ->], Hy as [-> | ->]; Lra.lra.
Qed.

Lemma phi_bound (a b c d : R) :
  (0 <= a → 0 <= b → 0 <= c → 0 <= d →
   (a * d - b * c) * (a * d - b * c) <= (a + b) * (c + d) * ((a + c) * (b + d)))%R.
Proof.
  intros Ha Hb Hc Hd.
  pose proof (Rmult_le_pos _ _ Ha Hb). pose proof (Rmult_le_pos _ _ Ha Hc).
  pose proof (Rmult_le_pos _ _ Ha Hd). pose proof (Rmult_le_pos _ _ Hb Hc).
  pose proof (Rmult_le_pos _ _ Hb Hd). pose proof (Rmult_le_pos _ _ Hc Hd).
  Lra.nra.
Qed.

Lemma pearson_binary_range (c1 c2 : list R) :
  Forall (λ x, x = 0 ∨ x = 1)%R c1 → Forall (λ x, x = 0 ∨ x = 1)%R c2 →
  length c1 = length c2 →
  (-1 <= pearson c1 c2 <= 1)%R.
Proof.
  intros H1 H2 Hlen. unfold pearson.
  destruct (decide (length c1 = 0%nat)) as [|Hn]; [Lra.lra|].
  rewrite !sum_acc, !sumSq_acc, pSum_acc, !binary_squares by done.
  destruct (binary_counts c1 c2 H1 H2 Hlen) as (Hp & Hp1 & Hp2 & Hcount).
  set (s1 := foldr Rplus 0%R c1) in *. set (s2 := foldr Rplus 0%R c2) in *.
  set (p := foldr Rplus 0%R (zip_with Rmult c1 c2)) in *.
  assert (0 < INR (length c1))%R as Hpos by (apply lt_0_INR; lia).
  set (n := INR (length c1)) in *.
  set (v1 := (0 + s1 - (0 + s1) * (0 + s1) / n)%R).
  set (v2 := (0 + s2 - (0 + s2) * (0 + s2) / n)%R).
  set (num := (0 + p - (0 + s1) * (0 + s2) / n)%R).
  destruct (Req_EM_T (sqrt (v1 * v2)) 0) as [|Hden]; [Lra.lra|].
  assert (v1 = (p + (s1 - p)) * ((s2 - p) + (n - s1 - s2 + p)) / n)%R as Hv1
    by (unfold v1; field; Lra.lra).
  assert (v2 = (p + (s2 - p)) * ((s1 - p) + (n - s1 - s2 + p)) / n)%R as Hv2
    by (unfold v2; field; Lra.lra).
  assert (num = (p * (n - s1 - s2 + p) - (s1 - p) * (s2 - p)) / n)%R as Hnum
    by (unfold num; field; Lra.lra).
  pose proof (phi_bound p (s1 - p) (s2 - p) (n - s1 - s2 + p)
                ltac:(Lra.lra) ltac:(Lra.lra) ltac:(Lra.lra) ltac:(Lra.lra)) as Hphi.
  assert (0 <= v1)%R as Hv1pos.
  { rewrite Hv1. apply Rmult_le_pos; [|left; by apply Rinv_0_lt_compat].
    apply Rmult_le_pos; Lra.lra. }
  assert (0 <= v2)%R as Hv2pos.
  { rewrite Hv2. apply Rmult_le_pos; [|left; by apply Rinv_0_lt_compat].
    apply Rmult_le_pos; Lra.lra. }
  assert (num * num <= v1 * v2)%R as Hsq.
  { rewrite Hnum, Hv1, Hv2.
    replace ((p * (n - s1 - s2 + p) - (s1 - p) * (s2 - p)) / n
             * ((p * (n - s1 - s2 + p) - (s1 - p) * (s2 - p)) / n))%R
      with ((p * (n - s1 - s2 + p) - (s1 - p) * (s2 - p))
            * (p * (n - s1 - s2 + p) - (s1 - p) * (s2 - p)) * (/ n * / n))%R
      by (field; Lra.lra).
    replace ((p + (s1 - p)) * (s2 - p + (n - s1 - s2 + p)) / n
             * ((p + (s2 - p)) * (s1 - p + (n - s1 - s2 + p)) / n))%R
      with ((p + (s1 - p)) * (s2 - p + (n - s1 - s2 + p))
            * ((p + (s2 - p)) * (s1 - p + (n - s1 - s2 + p))) * (/ n * / n))%R
      by (field; Lra.lra).
    apply Rmult_le_compat_r; [|exact Hphi].
    assert (0 < / n)%R by (by apply Rinv_0_lt_compat). Lra.nra. }
  set (den := sqrt (v1 * v2)) in *.
  assert (0 <= v1 * v2)%R as Hprod by (by apply Rmult_le_pos).
  assert (den * den = v1 * v2)%R as Hden2 by (by apply sqrt_sqrt).
  assert (0 < den)%R as Hdpos.
  { destruct (sqrt_pos (v1 * v2)) as [|Hz]; [done|]. by destruct Hden. }
  assert (- den <= num <= den)%R as [Hlo Hhi] by (split; Lra.nra).
  split.
  - apply Rmult_le_reg_r with den; [done|]. unfold Rdiv.
    rewrite Rmult_assoc, Rinv_l by Lra.lra. Lra.lra.
  - apply Rmult_le_reg_r with den; [done|]. unfold Rdiv.
    rewrite Rmult_assoc, Rinv_l by Lra.lra. Lra.lra.
Qed.

Lemma completionVector_binary (cs : gmap Z (gmap string event)) (habitId : string)
    (dateRange : list Z) :
  Forall (λ x, x = 0 ∨ x = 1)%R (completionVector cs habitId dateRange).
Proof.
  unfold completionVector. apply Forall_fmap, Forall_forall. intros d _. simpl.
  destruct (is_completed cs d habitId); auto.
Qed.


Lemma binary_sum_member (c : list R) :
  Forall (λ x, x = 0 ∨ x = 1)%R c →
  (0 <= foldr Rplus 0 c <= INR (length c))%R
  ∧ (1%R ∈ c → 1 <= foldr Rplus 0 c)%R
  ∧ (0%R ∈ c → foldr Rplus 0 c <= INR (length c) - 1)%R.
Proof.
  induction 1 as [|x c Hx _ (Hb & H1 & H0)].
  - simpl. split; [Lra.lra|]. split; intros Hin; by apply elem_of_nil in Hin.
  - rewrite length_cons, S_INR. simpl. split; [destruct Hx as [-> | ->]; Lra.lra|]. split.
    + intros [Heq|Hin]%elem_of_cons.
      * rewrite <- Heq. Lra.lra.
      * specialize (H1 Hin). destruct Hx as [-> | ->]; Lra.lra.
    + intros [Heq|Hin]%elem_of_cons.
      * rewrite <- Heq. Lra.lra.
      * specialize (H0 Hin). destruct Hx as [-> | ->]; Lra.lra.
Qed.

Lemma pearson_self (c : list R) :
  Forall (λ x, x = 0 ∨ x = 1)%R c → 1%R ∈ c → 0%R ∈ c → pearson c c = 1%R.
Proof.
  intros Hc Hone Hzero. unfold pearson.
  destruct (decide (length c = 0%nat)) as [Hn|Hn].
  { destruct c; [by apply elem_of_nil in Hone|done]. }
  rewrite !sum_acc, !sumSq_acc, pSum_acc, binary_squares, binary_self_products by done.
  destruct (binary_sum_member c Hc) as (_ & H1 & H0).
  specialize (H1 Hone). specialize (H0 Hzero).
  set (s := foldr Rplus 0%R c) in *.
  assert (0 < INR (length c))%R as Hpos by (apply lt_0_INR; lia).
  set (n := INR (length c)) in *.
  set (v := (0 + s - (0 + s) * (0 + s) / n)%R).
  assert (v = s * (n - s) / n)%R as Hv by (unfold v; field; Lra.lra).
  assert (0 < v)%R as Hvpos.
  { rewrite Hv. apply Rmult_lt_0_compat; [|by apply Rinv_0_lt_compat].
    apply Rmult_lt_0_compat; Lra.lra. }
  rewrite sqrt_square by Lra.lra.
  destruct (Req_EM_T v 0) as [|_]; [Lra.lra|]. field. Lra.lra.
Qed.

(** X22: a habit that is done on some day of the range and not done on
    another correlates with itself at exactly 1 (with no such two days
    the function gives 0, not 1). *)
Theorem self_correlation_is_one (now : clock) (a : string) (st : app) (d1 d2 : Z) :
  d1 ∈ getDateRangeData now st → d2 ∈ getDateRangeData now st →
  is_completed (completions st) d1 a = true →
  is_completed (completions st) d2 a = false →
  calculateCorrelation now a a st = 1%R.
Proof.
  intros Hd1 Hd2 Hc1 Hc2. unfold calculateCorrelation.
  apply pearson_self; [apply completionVector_binary| |]; unfold completionVector;
    apply list_elem_of_fmap.
  - exists d1. by rewrite Hc1.
  - exists d2. by rewrite Hc2.
Qed.

Lemma self_correlation_is_one_witness :
  calculateCorrelation (Scenario.at_noon 9) Scenario.hid Scenario.hid Scenario.after_week = 1%R.
Proof.
  apply (self_correlation_is_one (Scenario.at_noon 9) Scenario.hid Scenario.after_week 8 9).
  - apply (bool_decide_unpack _). vm_compute. reflexivity.
  - apply (bool_decide_unpack _). vm_compute. reflexivity.
  - vm_compute. reflexivity.
  - vm_compute. reflexivity.
Defined.

(** ** The six habits of the heat map *)

Lemma insert_by_total_perm (h : habit) (l : list habit) : insert_by_total h l ≡ₚ h :: l.
Proof.
  induction l as [|y l IH]; simpl; [done|].
  destruct (totalCompletions y <? totalCompletions h); [done|].
  rewrite IH. apply Permutation_swap.
Qed.

Lemma sort_by_total_perm (l : list habit) : sort_by_total l ≡ₚ l.
Proof.
  induction l as [|h l IH]; simpl; [done|].
  unfold sort_by_total in *. simpl. by rewrite insert_by_total_perm, IH.
Qed.

Lemma insert_by_total_sorted (h : habit) (l : list habit) :
  Sorted.StronglySorted (λ a b, totalCompletions b ≤ totalCompletions a) l →
  Sorted.StronglySorted (λ a b, totalCompletions b ≤ totalCompletions a) (insert_by_total h l).
Proof.
  induction 1 as [|y l Hl IH Hy]; simpl.
  - repeat constructor.
  - destruct (Z.ltb_spec (totalCompletions y) (totalCompletions h)) as [Hlt|Hge].
    + constructor; [by constructor|]. constructor; [lia|].
      eapply Forall_impl; [exact Hy|]. simpl. intros z Hz. lia.
    + constructor; [done|]. rewrite insert_by_total_perm. by constructor.
Qed.

Lemma sort_by_total_sorted (l : list habit) :
  Sorted.StronglySorted (λ a b, totalCompletions b ≤ totalCompletions a) (sort_by_total l).
Proof.
  induction l as [|h l IH]; [constructor|]. by apply insert_by_total_sorted.
Qed.


(** ** Backups, both ways *)

Module BackupRoundTrip.
Import Backup BackupExport.

(** X24: a payload whose [habits] and [completions] are both truthy
    replaces those two fields, and the settings too when it carries
    truthy ones, whether or not drawing the new data then fails: the
    error toast of that failure comes after the state has been replaced. *)
Theorem importData_replaces_before_drawing (render_throws : store → bool)
    (members : list (string * json)) (hs cs : json) (st : store) :
  member "habits" members = Some hs → truthy (Some hs) = true →
  member "completions" members = Some cs → truthy (Some cs) = true →
  let r := importData render_throws (Some (JObj members)) st in
  s_habits r.1 = hs
  ∧ s_completions r.1 = cs
  ∧ s_settings r.1 = (if truthy (member "settings" members)
                      then default JNull (member "settings" members) else s_settings st)
  ∧ r.2 = if render_throws r.1 then ErrorImporting RenderError else ImportedSuccessfully.
Proof.
  intros Hh Hth Hc Htc. unfold importData, try_import. simpl.
  rewrite Hh, Hth, Hc, Htc. simpl.
  destruct (truthy (member "settings" members)); simpl;
    by destruct (render_throws _) eqn:Hr; simpl; rewrite ?Hr.
Qed.

Lemma importData_replaces_before_drawing_witness :
  let st := Store (JArr [JObj [("id", JStr "h1")]]) (JObj []) (JObj [("theme", JStr "light")]) in
  let r := importData (λ _, true)
             (Some (JObj [("habits", JNum 5); ("completions", JObj [])])) st in
  s_habits r.1 = JNum 5
  ∧ s_completions r.1 = JObj []
  ∧ s_settings r.1 = JObj [("theme", JStr "light")]
  ∧ r.2 = ErrorImporting RenderError.
Proof.
  intros st.
  apply (importData_replaces_before_drawing (λ _, true)
           [("habits", JNum 5); ("completions", JObj [])] (JNum 5) (JObj []) st);
    reflexivity.
Defined.

(** X25: a backup written by [exportData] and read back by [importData]
    restores the state it was taken from, over whatever state is current,
    as long as its three fields are truthy (an array and two objects
    always are) and the dashboard can be drawn. *)
Theorem export_then_import_restores (render_throws : store → bool) (exportDate : string)
    (st current : store) :
  truthy (Some (s_habits st)) = true →
  truthy (Some (s_completions st)) = true →
  truthy (Some (s_settings st)) = true →
  render_throws st = false →
  importData render_throws (Some (exportData exportDate st)) current
  = (st, ImportedSuccessfully).
Proof.
  intros Hh Hc Hs Hr. unfold importData, try_import, exportData.
  cbn [get]. change (member "habits" _) with (Some (s_habits st)).
  change (member "completions" _) with (Some (s_completions st)).
  change (member "settings" _) with (Some (s_settings st)).
  rewrite Hh, Hc, Hs. simpl. unfold Datatypes.id.
  replace (Store (s_habits st) (s_completions st) (s_settings st)) with st by (by destruct st).
  by rewrite Hr.
Qed.

Lemma export_then_import_restores_witness :
  let st := Store (JArr [JObj [("id", JStr "h1")]]) (JObj []) (JObj [("theme", JStr "light")]) in
  importData (λ _, false) (Some (exportData "2024-01-06 12:00:00" st)) (Store JNull JNull JNull)
  = (st, ImportedSuccessfully).
Proof.
  intros st.
  apply (export_then_import_restores (λ _, false) "2024-01-06 12:00:00" st); reflexivity.
Defined.

End BackupRoundTrip.

(** ** The target through the edit form *)

Lemma digit_of_pretty_N_char (d : N) :
  (d < 10)%N → ParseInt.digit_of (pretty_N_char d) = Some (Z.of_N d).
Proof.
  intros Hd.
  assert (d = 0 ∨ d = 1 ∨ d = 2 ∨ d = 3 ∨ d = 4 ∨ d = 5 ∨ d = 6 ∨ d = 7 ∨ d = 8 ∨ d = 9)%N
    as Hcases by lia.
  repeat (destruct Hcases as [->|Hcases]; [reflexivity|]). by subst.
Qed.

(** Reading the digits written for [x] in front of [s] gives [x], and
    the reading goes on in [s] from there. *)
Lemma digits_pretty_N_go (x : N) (s : string) :
  ParseInt.digits 10 (pretty_N_go x s) None
  = ParseInt.digits 10 s (if decide (x = 0%N) then None else Some (Z.of_N x)).
Proof.
  revert s. induction (N.lt_wf_0 x) as [x _ IH]; intros s.
  destruct (decide (x = 0%N)) as [->|Hx]; [done|].
  rewrite pretty_N_go_step by lia. rewrite IH by (apply N.div_lt; lia).
  cbn [ParseInt.digits].
  rewrite digit_of_pretty_N_char by (apply N.mod_lt; lia).
  assert ((Z.of_N (x `mod` 10) <? 10) = true) as ->.
  { apply Z.ltb_lt. pose proof (N.mod_lt x 10 ltac:(lia)). lia. }
  f_equal. f_equal.
  pose proof (N.div_mod x 10 ltac:(lia)) as Hdm.
  destruct (decide ((x `div` 10)%N = 0%N)) as [Hz|Hnz]; simpl.
  - rewrite Hz in Hdm. lia.
  - lia.
Qed.

(** A positive number is written as a digit followed by nothing or by
    another digit. *)
Lemma pretty_N_go_shape (x : N) (s : string) :
  (0 < x)%N →
  ∃ c rest, pretty_N_go x s = String c rest ∧ (∃ d, (d < 10)%N ∧ c = pretty_N_char d)
            ∧ (rest = s ∨ ∃ c' rest', rest = String c' rest' ∧ (∃ d, (d < 10)%N ∧ c' = pretty_N_char d)).
Proof.
  revert s. induction (N.lt_wf_0 x) as [x _ IH]; intros s Hx.
  rewrite pretty_N_go_step by done.
  assert ((∃ d, (d < 10)%N ∧ pretty_N_char (x `mod` 10) = pretty_N_char d)) as Hd.
  { exists (x `mod` 10)%N. split; [apply N.mod_lt; lia|done]. }
  destruct (decide ((x `div` 10)%N = 0%N)) as [Hz|Hnz].
  - rewrite Hz, pretty_N_go_0. eexists _, _. split; [done|]. split; [done|]. by left.
  - assert (0 < x `div` 10)%N as Hpos by (by apply N.neq_0_lt_0).
    assert (x `div` 10 < x)%N as Hlt by (apply N.div_lt; lia).
    destruct (IH _ Hlt (String (pretty_N_char (x `mod` 10)) s) Hpos)
      as (c & rest & Heq & Hc & Hrest).
    exists c, rest. split; [done|]. split; [done|]. right.
    destruct Hrest as [->|Hrest]; [eauto|done].
Qed.

Lemma digit_char_cases (c : ascii) :
  (∃ d, (d < 10)%N ∧ c = pretty_N_char d) →
  (c = "0" ∨ c = "1" ∨ c = "2" ∨ c = "3" ∨ c = "4" ∨ c = "5" ∨ c = "6" ∨ c = "7"
   ∨ c = "8" ∨ c = "9")%char.
Proof.
  intros (d & Hd & ->).
  assert (d = 0 ∨ d = 1 ∨ d = 2 ∨ d = 3 ∨ d = 4 ∨ d = 5 ∨ d = 6 ∨ d = 7 ∨ d = 8 ∨ d = 9)%N
    as Hcases by lia.
  repeat (destruct Hcases as [->|Hcases]; [simpl; tauto|]). subst. simpl. tauto.
Qed.

Lemma parseInt_pretty_pos (p : positive) :
  ParseInt.skip_space (pretty (N.pos p)) = pretty (N.pos p)
  ∧ ParseInt.sign (pretty (N.pos p)) = (false, pretty (N.pos p))
  ∧ ParseInt.radix_of (pretty (N.pos p)) = (10, pretty (N.pos p))
  ∧ ParseInt.digits 10 (pretty (N.pos p)) None = Some (Z.pos p).
Proof.
  unfold pretty, pretty_N. rewrite decide_False by done.
  destruct (pretty_N_go_shape (N.pos p) "" ltac:(lia)) as (c & rest & Heq & Hc & Hrest).
  split; [|split; [|split]].
  - rewrite Heq. apply digit_char_cases in Hc.
    repeat (destruct Hc as [->|Hc]; [reflexivity|]). by subst.
  - rewrite Heq. apply digit_char_cases in Hc.
    repeat (destruct Hc as [->|Hc]; [reflexivity|]). by subst.
  - rewrite Heq. destruct Hrest as [->|(c' & rest' & -> & Hc')].
    + apply digit_char_cases in Hc.
      repeat (destruct Hc as [->|Hc]; [reflexivity|]). by subst.
    + apply digit_char_cases in Hc. apply digit_char_cases in Hc'.
      repeat (destruct Hc as [->|Hc]; [|]);
        repeat (destruct Hc' as [->|Hc']; [reflexivity|]); by subst.
  - rewrite digits_pretty_N_go. by rewrite decide_False by done.
Qed.

Lemma parseInt_minus (s : string) :
  ParseInt.parseInt (String "-" s)
  = (let '(radix, s3) := ParseInt.radix_of s in Z.opp <$> ParseInt.digits radix s3 None).
Proof. unfold ParseInt.parseInt. cbn [ParseInt.skip_space ParseInt.is_space]. done. Qed.

Lemma parseInt_pretty (z : Z) : ParseInt.parseInt (pretty z) = Some z.
Proof.
  destruct z as [|p|p]; [done| |].
  - change (pretty (Z.pos p)) with (pretty (N.pos p)).
    destruct (parseInt_pretty_pos p) as (H1 & H2 & H3 & H4).
    unfold ParseInt.parseInt. by rewrite H1, H2, H3, H4.
  - change (pretty (Z.neg p)) with (String "-" (pretty (N.pos p))).
    destruct (parseInt_pretty_pos p) as (_ & _ & H3 & H4).
    by rewrite parseInt_minus, H3, H4.
Qed.



(** ** The schedule a submitted form gives *)

Lemma weekday_range (d : Z) : weekday d ∈ all_days.
Proof.
  unfold weekday, all_days. pose proof (Z.mod_pos_bound (d + 4) 7 ltac:(lia)) as Hb.
  rewrite !elem_of_cons. lia.
Qed.

(** X27: a habit added through the form is due every day when the daily
    button, none, or one with another name is active; on the chosen
    weekdays when custom is; on the weekday of the submission when weekly
    is.  And for any habit, what holds of a day holds of the day a week
    later. *)
Theorem submitted_schedule (now later : clock) (f : form) (st : app) (h : habit) :
  let h' := new_habit now (form_data now f) in
  habits (handleHabitSubmit now None f st) = habits st ++ [h']
  ∧ isHabitActiveToday later h'
    = (if String.eqb (form_frequency f) "custom"
       then bool_decide (weekday (today later) ∈ f_activeDays f)
       else if String.eqb (form_frequency f) "weekly"
       then bool_decide (weekday (today later) = weekday (today now))
       else true)
  ∧ isHabitActiveToday (Clock (date_now later) (today later + 7) (time_of_day later)) h
    = isHabitActiveToday later h.
Proof.
  split; [done|]. split.
  - unfold isHabitActiveToday. simpl. unfold form_selectedDays.
    destruct (String.eqb_spec (form_frequency f) "daily") as [->|Hd]; [done|].
    destruct (String.eqb (form_frequency f) "custom"); [done|].
    destruct (String.eqb (form_frequency f) "weekly").
    + apply bool_decide_ext. by rewrite list_elem_of_singleton.
    + apply bool_decide_eq_true. apply weekday_range.
  - unfold isHabitActiveToday. simpl.
    replace (weekday (today later + 7)) with (weekday (today later)); [done|].
    unfold weekday. replace (today later + 7 + 4) with (today later + 4 + 1 * 7) by lia.
    by rewrite Z.mod_add by lia.
Qed.

(** X28: the consistency score is never negative, and for a daily habit
    it is at most 100 per cent. *)
Theorem consistencyScore_range (now : clock) (h : habit) (st : app) :
  (0 <= consistencyScore now h st)%Q
  ∧ (frequency h = "daily" → (consistencyScore now h st <= 100)%Q).
Proof.
  pose proof (window_count_range now (id h) 30 st) as Hc.
  assert (getLast30DaysCompletions now (id h) st = getLastNDaysCompletions now (id h) 30 st)
    as Heq by (unfold getLast30DaysCompletions, getLastNDaysCompletions; reflexivity).
  rewrite <- Heq in Hc.
  unfold consistencyScore. split.
  - destruct (Z.ltb_spec 0 (getLast30DaysPossible now h)) as [Hpos|]; [|done].
    destruct (getLast30DaysPossible now h) as [|p|p]; try lia.
    unfold Qle, Qdiv, Qmult, Qinv, inject_Z. simpl.
    rewrite ?Pos.mul_1_l, ?Pos.mul_1_r. lia.
  - intros Hd.
    assert (getLast30DaysPossible now h = 30) as ->.
    { unfold getLast30DaysPossible. rewrite Hd. reflexivity. }
    simpl. apply percent_bounds; lia.
Qed.

Lemma consistencyScore_range_witness :
  (consistencyScore (Scenario.at_noon 9)
     (Habit "h1" "Read" "" "learning" "fa-book" "#667eea" 1 "daily" all_days None 4 0 0 0)
     Scenario.restored <= 100)%Q.
Proof.
  apply (consistencyScore_range (Scenario.at_noon 9)
           (Habit "h1" "Read" "" "learning" "fa-book" "#667eea" 1 "daily" all_days None 4 0 0 0)
           Scenario.restored).
  reflexivity.
Defined.
